(** * Travel AI agent: query routing and catalog lookups

    A shallow embedding of [travel_ai_agent.py]: the string methods that
    [TravelAIAgent.handle_query] relies on, the two catalog lookups with
    their connection handling, the Gemini fallback, and the routing
    function itself, followed by the properties of the routing logic.

    Python [str] values are represented by [string]; the character
    operations ([lower], [strip], [title]) are given on the ASCII range,
    where Python's definitions are a matter of a few intervals.  The
    texts the development speaks of are ASCII texts: code points from 128
    on are carried through unchanged, which is not what Python does with
    them, and a statement that rests on the letters [title] or [lower]
    produce says so with [isascii]. *)

From Stdlib Require Import String Ascii List Bool Arith NArith Lia.
Import ListNotations.
Open Scope string_scope.

(** ** Python string methods *)

Module PyStr.

(** The line feed character and the one-character string holding it. *)
Definition LF : ascii := ascii_of_nat 10.
Definition nl : string := String LF EmptyString.

Definition code (c : ascii) : nat := nat_of_ascii c.

(** [str.isspace] on one ASCII character: TAB, LF, VT, FF, CR, the four
    separators FS, GS, RS, US and the space. *)
Definition isspace (c : ascii) : bool :=
  (((9 <=? code c) && (code c <=? 13)) || ((28 <=? code c) && (code c <=? 32)))%nat.

Definition isupper (c : ascii) : bool := ((65 <=? code c) && (code c <=? 90))%nat.
Definition islower (c : ascii) : bool := ((97 <=? code c) && (code c <=? 122))%nat.
Definition iscased (c : ascii) : bool := isupper c || islower c.

Definition lower_char (c : ascii) : ascii :=
  if isupper c then ascii_of_nat (code c + 32) else c.
Definition upper_char (c : ascii) : ascii :=
  if islower c then ascii_of_nat (code c - 32) else c.

(** [s.lower()] *)
Fixpoint lower (s : string) : string :=
  match s with
  | EmptyString => EmptyString
  | String c s' => String (lower_char c) (lower s')
  end.

(** [s.lstrip()], [s.rstrip()] and [s.strip()] with no argument: white
    space is removed from the ends only. *)
Fixpoint lstrip (s : string) : string :=
  match s with
  | EmptyString => EmptyString
  | String c s' => if isspace c then lstrip s' else s
  end.

Fixpoint rstrip (s : string) : string :=
  match s with
  | EmptyString => EmptyString
  | String c s' =>
      match rstrip s' with
      | EmptyString => if isspace c then EmptyString else String c EmptyString
      | r => String c r
      end
  end.

Definition strip (s : string) : string := lstrip (rstrip s).

(** [s.startswith(p)] *)
Definition startswith (s p : string) : bool := String.prefix p s.

(** [s.replace(old, new)]: the occurrences of [old] are found from left
    to right without overlap and every one of them is replaced.  The
    counter [skip] is the number of characters of the occurrence just
    matched that are still to be passed over. *)
Fixpoint replace_from (old new : string) (skip : nat) (s : string) : string :=
  match s with
  | EmptyString => EmptyString
  | String c s' =>
      match skip with
      | S k => replace_from old new k s'
      | O =>
          if String.prefix old s
          then new ++ replace_from old new (String.length old - 1) s'
          else String c (replace_from old new 0 s')
      end
  end.

(** With an empty [old] Python puts [new] before every character and at
    the end. *)
Fixpoint intersperse_all (new s : string) : string :=
  match s with
  | EmptyString => new
  | String c s' => new ++ String c (intersperse_all new s')
  end.

Definition replace (s old new : string) : string :=
  match old with
  | EmptyString => intersperse_all new s
  | _ => replace_from old new 0 s
  end.

(** [s.title()]: a cased character is put in upper case when the
    character before it is not cased, in lower case when it is. *)
Fixpoint title_from (previous_is_cased : bool) (s : string) : string :=
  match s with
  | EmptyString => EmptyString
  | String c s' =>
      String (if previous_is_cased then lower_char c else upper_char c)
             (title_from (iscased c) s')
  end.

Definition title (s : string) : string := title_from false s.

(** [sep.join(items)] *)
Definition join (sep : string) (items : list string) : string :=
  String.concat sep items.

End PyStr.

Import PyStr.

(** ** Effects: exceptions, the event trace and the outside world *)

(** The two exception classes the handlers of the program tell apart. *)
Inductive exn : Type :=
| Psycopg2Error (msg : string)     (* psycopg2.Error and its subclasses *)
| OtherException (msg : string).   (* every other subclass of Exception *)

(** [str(e)] *)
Definition str_exn (e : exn) : string :=
  match e with Psycopg2Error m | OtherException m => m end.

Definition is_psycopg2_error (e : exn) : bool :=
  match e with Psycopg2Error _ => true | OtherException _ => false end.

Definition is_exception (e : exn) : bool := true.

(** Two classes that are not [psycopg2.Error]. *)
Definition ValueError (msg : string) : exn := OtherException msg.
Definition TypeError (msg : string) : exn := OtherException msg.

(** Connections are handles; every successful [psycopg2.connect] makes a
    fresh one. *)
Definition connection : Type := nat.

(** What the program does to the outside world, in the order it does it. *)
Inductive event : Type :=
| EvConnect (c : option connection)   (* psycopg2.connect; None: it raised *)
| EvCursor (c : connection)           (* conn.cursor() entered *)
| EvExecute (c : connection) (sql : string) (params : list string)
| EvCursorExit (c : connection)       (* the with block left *)
| EvClose (c : connection)            (* conn.close() *)
| EvGenerate (prompt : string)        (* model.generate_content(prompt) *)
| EvStdout (line : string)
| EvStderr (line : string).

Record state : Type := mkState {
  next_conn : nat;
  open_conns : list connection;
  trace : list event
}.

Inductive result (A : Type) : Type :=
| Ok (a : A)
| Raise (e : exn).
Arguments Ok {A} a.
Arguments Raise {A} e.

(** Computations: state passing with exceptions. *)
Definition M (A : Type) : Type := state -> result A * state.

Definition ret {A} (a : A) : M A := fun s => (Ok a, s).

Definition bind {A B} (m : M A) (k : A -> M B) : M B :=
  fun s =>
    match m s with
    | (Ok a, s') => k a s'
    | (Raise e, s') => (Raise e, s')
    end.

Definition raise {A} (e : exn) : M A := fun s => (Raise e, s).

Declare Scope py_scope.
Delimit Scope py_scope with py.
Notation "x <- m ;; k" := (bind m (fun x => k))
  (at level 61, m at next level, right associativity) : py_scope.
Notation "m ;;; k" := (bind m (fun _ => k))
  (at level 61, right associativity) : py_scope.
Open Scope py_scope.

Definition emit (e : event) : M unit :=
  fun s => (Ok tt, mkState (next_conn s) (open_conns s) (trace s ++ [e])%list).

(** [print(line)] and [print(line, file=sys.stderr)].  The lines are
    ASCII texts, which every encoding of the two streams can write. *)
Definition print (line : string) : M unit := emit (EvStdout line).
Definition eprint (line : string) : M unit := emit (EvStderr line).

(** [try: m  except C as e: h e] where [catches] recognises class [C]. *)
Definition try_except {A} (m : M A) (catches : exn -> bool) (h : exn -> M A) : M A :=
  fun s =>
    match m s with
    | (Ok a, s') => (Ok a, s')
    | (Raise e, s') => if catches e then h e s' else (Raise e, s')
    end.

(** [try: m  finally: fin]: [fin] runs on every way out of [m]. *)
Definition try_finally {A} (m : M A) (fin : M unit) : M A :=
  fun s =>
    match m s with
    | (r, s') =>
        match fin s' with
        | (Ok _, s'') => (r, s'')
        | (Raise e, s'') => (Raise e, s'')
        end
    end.

(** The outcome of a call into a collaborator. *)
Inductive outcome (A : Type) : Type :=
| Raises (msg : string)
| Returns (a : A).
Arguments Raises {A} msg.
Arguments Returns {A} a.

(** *** Values of the store and of the Gemini client *)

(** [datetime.date] *)
Record date : Type := mkDate { year : nat; month : nat; day : nat }.

(** A value of one of the two date columns as the driver hands it over:
    a [date], or something else of which only [str(...)] is used. *)
Inductive date_cell : Type :=
| IsDate (d : date)
| NotDate (str_of : string).

(** A row of
    [SELECT name, location, price_tier, checkin_date, checkout_date, booked].
    Of the three text columns the program only uses the [str], which is
    "None" for NULL. *)
Record hotel_row : Type := mkRow {
  row0 : string;
  row1 : string;
  row2 : string;
  row3 : date_cell;
  row4 : date_cell;
  row5 : option bool     (* None: SQL NULL *)
}.

(** The dictionary built for each row. *)
Record hotel : Type := mkHotel {
  name : string;
  location : string;
  price_tier : string;
  checkin_date : string;
  checkout_date : string;
  booked : option bool
}.

(** The part of a [GenerateContentResponse] the program looks at. *)
Record part : Type := mkPart { text : string }.
Record content : Type := mkContent { parts : list part }.
Record candidate : Type := mkCandidate { cand_content : option content }.
Record response : Type := mkResponse { candidates : list candidate }.

Record GenerativeModel : Type := mkModel { model_name : string }.

(** The character NUL, which the driver refuses in a string parameter:
    adapting such a parameter raises [ValueError] before anything is sent
    to the server. *)
Definition NUL : ascii := ascii_of_nat 0.

Fixpoint has_nul (s : string) : bool :=
  match s with
  | EmptyString => false
  | String c s' => Ascii.eqb c NUL || has_nul s'
  end.

Definition NUL_MESSAGE : string :=
  "A string literal cannot contain NUL (0x00) characters.".

(** The outside world: how the store and the Gemini client answer.  For
    the store, [Raises] is a [psycopg2.Error].  A city is [None] when the
    column holds NULL.  The server only answers statements it was sent:
    it returns no rows for a location the driver refuses. *)
Record World : Type := mkWorld {
  (* psycopg2.connect with the entries of DB_CONFIG *)
  pg_connect : outcome unit;
  (* SELECT DISTINCT location FROM hotels ORDER BY location; *)
  pg_select_cities : outcome (list (option string));
  (* SELECT ... FROM hotels WHERE LOWER(location) = LOWER(%s); *)
  pg_select_hotels : string -> outcome (list hotel_row);
  (* genai.configure(api_key) and genai.GenerativeModel(name) *)
  genai_setup : string -> outcome unit;
  (* model.generate_content(prompt); None: a response that is falsy *)
  genai_generate : string -> outcome (option response);
  pg_rows_were_sent :
    forall location rows,
      pg_select_hotels location = Returns rows -> has_nul location = false
}.

(** *** Primitive operations *)

Definition psycopg2_connect (w : World) : M connection :=
  fun s =>
    match pg_connect w with
    | Raises msg =>
        (Raise (Psycopg2Error msg),
         mkState (next_conn s) (open_conns s) (trace s ++ [EvConnect None])%list)
    | Returns _ =>
        let c := next_conn s in
        (Ok c, mkState (S c) (c :: open_conns s) (trace s ++ [EvConnect (Some c)])%list)
    end.

Definition conn_close (c : connection) : M unit :=
  fun s =>
    (Ok tt,
     mkState (next_conn s)
             (filter (fun c' => negb (Nat.eqb c' c)) (open_conns s))
             (trace s ++ [EvClose c])%list).

(** [with conn.cursor() as cur: body]: the cursor is left on every way
    out of the body.  Making a cursor on a connection just opened does not
    reach the server and is taken not to fail. *)
Definition with_cursor {A} (c : connection) (body : connection -> M A) : M A :=
  emit (EvCursor c) ;;; try_finally (body c) (emit (EvCursorExit c)).

(** [cur.execute(sql, params)] followed by reading the rows.  The driver
    first adapts the parameters and raises [ValueError], which is no
    [psycopg2.Error], for a string that holds NUL; otherwise it sends the
    statement and fetches the whole result while executing, so the
    statement either raises [psycopg2.Error] or leaves all its rows to
    iterate over. *)
Definition cursor_execute {A} (cur : connection) (sql : string)
    (params : list string) (answer : outcome (list A)) : M (list A) :=
  emit (EvExecute cur sql params) ;;;
  if existsb has_nul params then raise (ValueError NUL_MESSAGE)
  else
    match answer with
    | Raises msg => raise (Psycopg2Error msg)
    | Returns rows => ret rows
    end.

Definition generate_content (w : World) (prompt : string) : M (option response) :=
  emit (EvGenerate prompt) ;;;
  match genai_generate w prompt with
  | Raises msg => raise (OtherException msg)
  | Returns r => ret r
  end.

(** ** The program *)

Definition GEMINI_MODEL_NAME : string := "gemini-2.0-flash".

Definition SQL_CITIES : string :=
  "SELECT DISTINCT location FROM hotels ORDER BY location;".
Definition SQL_HOTELS : string :=
  "SELECT name, location, price_tier, checkin_date, checkout_date, booked FROM hotels WHERE LOWER(location) = LOWER(%s);".

(** [str(n)] for a natural number. *)
Definition digit (n : nat) : ascii := ascii_of_nat (48 + n mod 10).

Fixpoint str_nat_digits (fuel n : nat) (acc : string) : string :=
  match fuel with
  | O => acc
  | S fuel' =>
      let acc' := String (digit n) acc in
      if (n <? 10)%nat then acc' else str_nat_digits fuel' (n / 10) acc'
  end.

Definition str_nat (n : nat) : string := str_nat_digits (S n) n "".

(** [d.strftime("%Y-%m-%d")], as the C library of Linux writes the
    directives: the year in decimal without padding (999 for the year
    999), the month and the day on two digits.  The fields of a
    [datetime.date] lie within 1..9999, 1..12 and 1..31. *)
Definition zero_padded2 (n : nat) : string :=
  String (digit (n / 10)) (String (digit n) "").
Definition strftime_Y_m_d (d : date) : string :=
  str_nat (year d) ++ "-" ++ zero_padded2 (month d) ++ "-" ++ zero_padded2 (day d).

(** [sep.join(items)] for items of which some may be [None]: the first
    item that is no string raises [TypeError]. *)
Fixpoint first_none (i : nat) (items : list (option string)) : option nat :=
  match items with
  | [] => None
  | Some _ :: items' => first_none (S i) items'
  | None :: _ => Some i
  end.

(** The strings of a list. *)
Fixpoint strings_of (items : list (option string)) : list string :=
  match items with
  | [] => []
  | Some x :: items' => x :: strings_of items'
  | None :: items' => strings_of items'
  end.

Definition str_join (sep : string) (items : list (option string)) : M string :=
  match first_none 0 items with
  | Some i =>
      raise (TypeError ("sequence item " ++ str_nat i ++
                        ": expected str instance, NoneType found"))
  | None => ret (join sep (strings_of items))
  end.

(** [get_db_connection()]: a new connection, or [None] when connecting
    raises [psycopg2.Error]. *)
Definition get_db_connection (w : World) : M (option connection) :=
  try_except
    (conn <- psycopg2_connect w ;;
     ret (Some conn))
    is_psycopg2_error
    (fun e =>
       eprint ("Error connecting to PostgreSQL database: " ++ str_exn e) ;;;
       ret None).

Record TravelAIAgent : Type := mkAgent { model : option GenerativeModel }.

(** [TravelAIAgent.__init__(api_key)] *)
Definition TravelAIAgent_init (w : World) (api_key : string) : M TravelAIAgent :=
  (if (api_key =? "")%string
   then eprint "Warning: Gemini API Key is not set, but the agent will now reject general queries anyway."
   else ret tt) ;;;
  try_except
    (match genai_setup w api_key with
     | Raises msg => raise (OtherException msg)
     | Returns _ => ret (mkAgent (Some (mkModel GEMINI_MODEL_NAME)))
     end)
    is_exception
    (fun e =>
       eprint ("Error configuring Gemini API: " ++ str_exn e ++
               ". Gemini functionality is not intended for general queries as per user request.") ;;;
       ret (mkAgent None)).

(** [TravelAIAgent._get_cities_from_db()].  The list [cities] is only
    appended to after [execute] has returned, so the handler and the code
    after the [try] see it empty when the statement raised.  An item of
    [cities] is [None] for a NULL; the [join] of the line that is printed
    raises [TypeError] then, inside the [try] and past its handler, so
    that a list the function returns holds strings only. *)
Definition _get_cities_from_db (w : World) : M (list string) :=
  let cities : list (option string) := [] in
  conn <- get_db_connection w ;;
  match conn with
  | Some conn =>
      try_finally
        (try_except
           (cities <- with_cursor conn (fun cur =>
                        rows <- cursor_execute cur SQL_CITIES [] (pg_select_cities w) ;;
                        ret (fold_left (fun cities row => (cities ++ [row])%list) rows cities)) ;;
            joined <- str_join ", " cities ;;
            print ("Found cities: " ++ joined) ;;;
            ret (strings_of cities))
           is_psycopg2_error
           (fun e =>
              eprint ("Error querying cities from DB: " ++ str_exn e) ;;;
              ret (strings_of cities)))
        (conn_close conn)
  | None => ret (strings_of cities)
  end.

(** The date columns as strings. *)
Definition date_cell_str (v : date_cell) : string :=
  match v with
  | IsDate d => strftime_Y_m_d d
  | NotDate s => s
  end.

Definition hotel_of_row (row : hotel_row) : hotel :=
  let checkin := date_cell_str (row3 row) in
  let checkout := date_cell_str (row4 row) in
  {| name := row0 row;
     location := row1 row;
     price_tier := row2 row;
     checkin_date := checkin;
     checkout_date := checkout;
     booked := row5 row |}.

(** [TravelAIAgent._get_hotels_by_location_from_db(location)] *)
Definition _get_hotels_by_location_from_db (w : World) (location : string)
  : M (list hotel) :=
  let hotels : list hotel := [] in
  conn <- get_db_connection w ;;
  match conn with
  | Some conn =>
      try_finally
        (try_except
           (hotels <- with_cursor conn (fun cur =>
                        rows <- cursor_execute cur SQL_HOTELS [location]
                                  (pg_select_hotels w location) ;;
                        ret (fold_left (fun hotels row => (hotels ++ [hotel_of_row row])%list)
                                       rows hotels)) ;;
            print ("Found " ++ str_nat (List.length hotels) ++ " hotels in " ++ location ++ ".") ;;;
            ret hotels)
           is_psycopg2_error
           (fun e =>
              eprint ("Error querying hotels for " ++ location ++ " from DB: " ++ str_exn e) ;;;
              ret hotels))
        (conn_close conn)
  | None => ret hotels
  end.

Definition GEMINI_CONTEXT : string :=
  "You are a travel agent. Only answer questions about country, state, cities, places in cities and what it is like to visit there or famous for, hotels/resorts/stays, travel planning, price details and travel related details of country. If a question is outside of this context, respond with: 'Hi, I'm an travel Agent and ask me question only about travel/country/state/city/stay/travel planning related details. Thank you!'".

(** The test
    [response and response.candidates and response.candidates[0].content
     and response.candidates[0].content.parts], giving the first part when
    it holds. *)
Definition first_part (r : option response) : option part :=
  match r with
  | Some r =>
      match candidates r with
      | c :: _ =>
          match cand_content c with
          | Some ct =>
              match parts ct with
              | p :: _ => Some p
              | [] => None
              end
          | None => None
          end
      | [] => None
      end
  | None => None
  end.

(** [TravelAIAgent._query_gemini(prompt)] *)
Definition _query_gemini (w : World) (self : TravelAIAgent) (prompt : string)
  : M string :=
  match model self with
  | None => ret "AI functionality is not available due to missing or invalid API key."
  | Some _ =>
      print ("Querying Gemini AI with prompt: '" ++ prompt ++
             "' (Note: This is not for general queries as per user config)...") ;;;
      let context := GEMINI_CONTEXT in
      let prompt_with_context := context ++ nl ++ nl ++ "User query: " ++ prompt in
      try_except
        (response <- generate_content w prompt_with_context ;;
         match first_part response with
         | Some p =>
             let text := text p in
             print "Gemini AI response received." ;;;
             ret text
         | None => ret "Gemini AI did not return a valid response."
         end)
        is_exception
        (fun e =>
           eprint ("Error querying Gemini AI: " ++ str_exn e) ;;;
           ret ("Error communicating with AI: " ++ str_exn e))
  end.

(** Truth value of the [booked] column. *)
Definition truthy (b : option bool) : bool :=
  match b with Some true => true | _ => false end.

(** What one turn of the loop over [hotels] adds to [response_str]; the
    two hotel branches have the same loop body. *)
Definition hotel_line (hotel : hotel) : string :=
  let booked_status := if truthy (booked hotel) then "Booked" else "Available" in
  "- " ++ name hotel ++ " (" ++ price_tier hotel ++ ") - " ++
  "Check-in: " ++ checkin_date hotel ++ ", Check-out: " ++ checkout_date hotel ++ " " ++
  "Status: " ++ booked_status ++ nl.

(** [TravelAIAgent.handle_query(user_query)] *)
Definition handle_query (w : World) (self : TravelAIAgent) (user_query : string)
  : M string :=
  let user_query_lower := strip (lower user_query) in
  if (user_query_lower =? "list cities")%string || (user_query_lower =? "show cities")%string then
    cities <- _get_cities_from_db w ;;
    match cities with
    | _ :: _ => ret ("Available cities: " ++ join ", " cities ++ ".")
    | [] => ret "Could not retrieve city list from database. Please ensure the database is running and accessible."
    end
  else if startswith user_query_lower "hotels in " then
    let location := strip (replace user_query_lower "hotels in " "") in
    hotels <- _get_hotels_by_location_from_db w location ;;
    match hotels with
    | _ :: _ =>
        let response_str := "Hotels in " ++ title location ++ ":" ++ nl in
        let response_str := fold_left (fun acc hotel => acc ++ hotel_line hotel) hotels response_str in
        ret (strip response_str)
    | [] => ret ("No hotels found in " ++ title location ++ " in our database, or an error occurred.")
    end
  else if startswith user_query_lower "find hotels in " then
    let location := strip (replace user_query_lower "find hotels in " "") in
    hotels <- _get_hotels_by_location_from_db w location ;;
    match hotels with
    | _ :: _ =>
        let response_str := "Hotels found in " ++ title location ++ ":" ++ nl in
        let response_str := fold_left (fun acc hotel => acc ++ hotel_line hotel) hotels response_str in
        ret (strip response_str)
    | [] => ret ("No hotels found in " ++ title location ++ " in our database, or an error occurred.")
    end
  else
    gemini_response <- _query_gemini w self user_query ;;
    ret gemini_response.

(** *** Intents

    The branch [handle_query] takes, named as the specification names it:
    the same chain of tests with every branch cut down to the intent and
    the value it works on. *)
Inductive Intent : Type :=
| ListCities
| HotelsByLocation (location : string)
| Unclassified (originalText : string).

Definition classify (user_query : string) : Intent :=
  let user_query_lower := strip (lower user_query) in
  if (user_query_lower =? "list cities")%string || (user_query_lower =? "show cities")%string then
    ListCities
  else if startswith user_query_lower "hotels in " then
    HotelsByLocation (strip (replace user_query_lower "hotels in " ""))
  else if startswith user_query_lower "find hotels in " then
    HotelsByLocation (strip (replace user_query_lower "find hotels in " ""))
  else
    Unclassified user_query.

(** ** The HTTP endpoint and the start-up *)

(** A parsed JSON value, as [request.get_json()] hands it over and as
    [jsonify] takes it.  Of a float the program only uses whether it is
    zero; the items of a dictionary have distinct keys. *)
#[warnings="-register-all"]
Inductive json : Type :=
| JNull                                   (* None *)
| JBool (b : bool)
| JInt (n : Z)
| JFloat (is_zero : bool)
| JStr (s : string)
| JList (items : list json)
| JDict (items : list (string * json)).

(** The truth value of a Python object that came out of JSON. *)
Definition json_truthy (v : json) : bool :=
  match v with
  | JNull => false
  | JBool b => b
  | JInt Z0 => false
  | JInt _ => true
  | JFloat is_zero => negb is_zero
  | JStr s => negb (s =? "")%string
  | JList [] => false
  | JList _ => true
  | JDict [] => false
  | JDict _ => true
  end.

(** [type(v).__name__] *)
Definition type_name (v : json) : string :=
  match v with
  | JNull => "NoneType"
  | JBool _ => "bool"
  | JInt _ => "int"
  | JFloat _ => "float"
  | JStr _ => "str"
  | JList _ => "list"
  | JDict _ => "dict"
  end.

(** The [AttributeError] raised when [v] has no attribute [attr]. *)
Definition AttributeError (v : json) (attr : string) : exn :=
  OtherException ("'" ++ type_name v ++ "' object has no attribute '" ++ attr ++ "'").

(** [d.get(key)] on the items of a dictionary: [None] when the key is
    absent. *)
Fixpoint dict_get (items : list (string * json)) (key : string) : json :=
  match items with
  | [] => JNull
  | (k, v) :: items' => if (k =? key)%string then v else dict_get items' key
  end.

(** A response of the endpoint: the JSON body and the status code. *)
Definition http_response : Type := (json * nat)%type.

(** [jsonify(d)] for a dictionary [d], with the status the handler gives. *)
Definition jsonify (items : list (string * json)) (status : nat) : http_response :=
  (JDict items, status).

(** The process: the module global [agent_instance] and the outside
    world. *)
Record process : Type := mkProcess {
  agent_instance : option TravelAIAgent;
  outside : state
}.

Definition P (A : Type) : Type := process -> result A * process.

Definition retP {A} (a : A) : P A := fun p => (Ok a, p).

Definition bindP {A B} (m : P A) (k : A -> P B) : P B :=
  fun p =>
    match m p with
    | (Ok a, p') => k a p'
    | (Raise e, p') => (Raise e, p')
    end.

Definition raiseP {A} (e : exn) : P A := fun p => (Raise e, p).

(** A computation on the outside world, run inside the process. *)
Definition lift {A} (m : M A) : P A :=
  fun p =>
    match m (outside p) with
    | (r, s') => (r, mkProcess (agent_instance p) s')
    end.

Definition read_agent_instance : P (option TravelAIAgent) :=
  fun p => (Ok (agent_instance p), p).

Definition write_agent_instance (a : option TravelAIAgent) : P unit :=
  fun p => (Ok tt, mkProcess a (outside p)).

Notation "x <~ m ;; k" := (bindP m (fun x => k))
  (at level 61, m at next level, right associativity) : py_scope.
Notation "m ;;~ k" := (bindP m (fun _ => k))
  (at level 61, right associativity) : py_scope.

(** [data.get(key)]: only a dictionary has the method. *)
Definition method_get (data : json) (key : string) : P json :=
  match data with
  | JDict items => retP (dict_get items key)
  | _ => raiseP (AttributeError data "get")
  end.

(** [agent.handle_query(user_query)] for a value of any type: the first
    thing [handle_query] does is [user_query.lower()], which only a string
    has. *)
Definition call_handle_query (w : World) (agent : TravelAIAgent) (user_query : json)
  : P string :=
  match user_query with
  | JStr q => lift (handle_query w agent q)
  | _ => raiseP (AttributeError user_query "lower")
  end.

(** [query_ai_endpoint()], the handler of [POST /query_ai].  [get_json]
    is what [request.get_json()] does with the body of the request: it
    returns the parsed value or raises. *)
Definition query_ai_endpoint (w : World) (get_json : outcome json) : P http_response :=
  agent_instance <~ read_agent_instance ;;
  match agent_instance with
  | None =>
      retP (jsonify [("error", JStr "AI Agent not initialized. Please check server logs.")] 500)
  | Some agent =>
      data <~ match get_json with
              | Raises msg => raiseP (OtherException msg)
              | Returns data => retP data
              end ;;
      user_query <~ method_get data "query" ;;
      if negb (json_truthy user_query) then
        retP (jsonify [("error", JStr "No query provided in the request body.")] 400)
      else
        response_text <~ call_handle_query w agent user_query ;;
        retP (jsonify [("response", JStr response_text)] 200)
  end.

(** [GEMINI_API_KEY], from what the environment holds under that name. *)
Definition GEMINI_API_KEY (environ : option string) : string :=
  match environ with
  | Some key => key
  | None => "Provide your own API key"
  end.

(** [init_agent_async()] *)
Definition init_agent_async (w : World) (environ : option string) : P unit :=
  agent <~ lift (TravelAIAgent_init w (GEMINI_API_KEY environ)) ;;
  write_agent_instance (Some agent) ;;~
  conn <~ lift (get_db_connection w) ;;
  match conn with
  | Some conn =>
      lift (print "Successfully connected to PostgreSQL database." ;;;
            conn_close conn)
  | None =>
      lift (print "Failed to connect to PostgreSQL database. Database queries will not work. Please check DB_CONFIG.")
  end.

(** ** Notions used in the statements *)

(** *** Strings *)

(** The last character of a string, and whether some character of it is
    not white space. *)
Fixpoint last_char (s : string) : option ascii :=
  match s with
  | EmptyString => None
  | String c s' => match s' with EmptyString => Some c | _ => last_char s' end
  end.

Fixpoint has_nonspace (s : string) : bool :=
  match s with
  | EmptyString => false
  | String c s' => negb (isspace c) || has_nonspace s'
  end.

(** [s[n:]] *)
Fixpoint drop (n : nat) (s : string) : string :=
  match n, s with
  | O, _ => s
  | S _, EmptyString => EmptyString
  | S n', String _ s' => drop n' s'
  end.

(** An ASCII digit. *)
Definition isdigit (c : ascii) : bool := ((48 <=? code c) && (code c <=? 57))%nat.

(** The shape [YYYY-MM-DD]: four digits, a dash, two digits, a dash, two
    digits. *)
Definition is_YYYY_MM_DD (s : string) : bool :=
  match list_ascii_of_string s with
  | [y1; y2; y3; y4; d1; m1; m2; d2; a1; a2] =>
      isdigit y1 && isdigit y2 && isdigit y3 && isdigit y4 &&
      Ascii.eqb d1 "-" && isdigit m1 && isdigit m2 &&
      Ascii.eqb d2 "-" && isdigit a1 && isdigit a2
  | _ => false
  end.

(** *** Classification *)

(** The normalised form of a query: lower case, stripped. *)
Definition normalize (user_query : string) : string := strip (lower user_query).

(** The first test of [handle_query]. *)
Definition is_city_list_query (normalized : string) : bool :=
  (normalized =? "list cities")%string || (normalized =? "show cities")%string.

(** The specification's reading of the location of a hotel query: what
    comes after the leading prefix of the normalised text, stripped. *)
Definition remainder_after_prefix (prefix normalized : string) : string :=
  strip (drop (String.length prefix) normalized).

(** The three ways a query is classified, with the tests that lead there. *)
Inductive classified (user_query : string) : Intent -> Prop :=
| IsListCities :
    is_city_list_query (normalize user_query) = true ->
    classified user_query ListCities
| IsHotels (prefix : string) :
    prefix = "hotels in " \/ prefix = "find hotels in " ->
    is_city_list_query (normalize user_query) = false ->
    startswith (normalize user_query) prefix = true ->
    classified user_query (HotelsByLocation (strip (replace (normalize user_query) prefix "")))
| IsUnclassified :
    is_city_list_query (normalize user_query) = false ->
    startswith (normalize user_query) "hotels in " = false ->
    startswith (normalize user_query) "find hotels in " = false ->
    classified user_query (Unclassified user_query).

(** *** States and traces *)

(** The state after the events [evs]. *)
Definition logged (s : state) (evs : list event) : state :=
  mkState (next_conn s) (open_conns s) (trace s ++ evs)%list.

(** The handle [c] opened, used and closed, with the events of one
    lookup on it; [note] is the line the lookup prints. *)
Definition after_lookup (s : state) (sql : string) (params : list string)
    (note : event) : state :=
  let c := next_conn s in
  mkState (S c)
          (filter (fun c' => negb (Nat.eqb c' c)) (open_conns s))
          (trace s ++ [EvConnect (Some c); EvCursor c; EvExecute c sql params;
                       EvCursorExit c; note; EvClose c])%list.

(** The events of a lookup after the opening of connection [c]. *)
Definition lookup_events (c : connection) (sql : string) (params : list string)
    (note : event) : list event :=
  [EvCursor c; EvExecute c sql params; EvCursorExit c; note; EvClose c].

(** The events that are printed lines. *)
Definition is_print (e : event) : bool :=
  match e with
  | EvStdout _ | EvStderr _ => true
  | _ => false
  end.

(** The statements executed on connection [c] in a trace, in order. *)
Fixpoint queries_on (c : connection) (evs : list event) : list (string * list string) :=
  match evs with
  | [] => []
  | EvExecute c' sql params :: evs' =>
      if Nat.eqb c' c then (sql, params) :: queries_on c evs' else queries_on c evs'
  | _ :: evs' => queries_on c evs'
  end.

(** The prompts of the calls of [generate_content] in a trace, in order. *)
Fixpoint generate_calls (evs : list event) : list string :=
  match evs with
  | [] => []
  | EvGenerate prompt :: evs' => prompt :: generate_calls evs'
  | _ :: evs' => generate_calls evs'
  end.

(** The state after a lookup that an exception left: the handle [c]
    opened, used and closed, and no line printed. *)
Definition after_raise (s : state) (sql : string) (params : list string) : state :=
  let c := next_conn s in
  mkState (S c)
          (filter (fun c' => negb (Nat.eqb c' c)) (open_conns s))
          (trace s ++ [EvConnect (Some c); EvCursor c; EvExecute c sql params;
                       EvCursorExit c; EvClose c])%list.

(** All the characters of a text are ASCII. *)
Fixpoint isascii (s : string) : bool :=
  match s with
  | EmptyString => true
  | String c s' => (code c <? 128)%nat && isascii s'
  end.

(** *** Answers *)

(** The answer to a city list query, given what the lookup returned. *)
Definition cities_response (cities : list string) : string :=
  match cities with
  | _ :: _ => "Available cities: " ++ join ", " cities ++ "."
  | [] => "Could not retrieve city list from database. Please ensure the database is running and accessible."
  end.

(** The answer to a hotel query; [heading] is ["Hotels in "] or
    ["Hotels found in "]. *)
Definition hotels_response (heading location : string) (hotels : list hotel) : string :=
  match hotels with
  | _ :: _ =>
      strip (fold_left (fun acc hotel => acc ++ hotel_line hotel) hotels
                       (heading ++ title location ++ ":" ++ nl))
  | [] => "No hotels found in " ++ title location ++ " in our database, or an error occurred."
  end.

(** The heading each of the two prefixes answers with. *)
Definition heading_of (prefix : string) : string :=
  if (prefix =? "hotels in ")%string then "Hotels in " else "Hotels found in ".

(** The prompt sent to the model for a query. *)
Definition prompt_with_context (prompt : string) : string :=
  GEMINI_CONTEXT ++ nl ++ nl ++ "User query: " ++ prompt.

(** The line [_query_gemini] prints before it calls the model. *)
Definition querying_note (prompt : string) : event :=
  EvStdout ("Querying Gemini AI with prompt: '" ++ prompt ++
            "' (Note: This is not for general queries as per user config)...").

(** The status word: "Booked" when the flag is true, "Available"
    otherwise. *)
Definition status_word (flag : option bool) : string :=
  match flag with
  | Some true => "Booked"
  | _ => "Available"
  end.

(** A listing line as the specification writes it:
    [- {name} ({price_tier}) - Check-in: {..}, Check-out: {..} Status: {Booked|Available}]. *)
Definition listing_line (h : hotel) : string :=
  "- " ++ name h ++ " (" ++ price_tier h ++ ") - Check-in: " ++ checkin_date h ++
  ", Check-out: " ++ checkout_date h ++ " Status: " ++ status_word (booked h).

(** The answer of [_query_gemini] when the agent has no model. *)
Definition UNCONFIGURED_MESSAGE : string :=
  "AI functionality is not available due to missing or invalid API key.".

(** A response the program does not accept: no response, no candidates,
    a first candidate without content, or a content without parts. *)
Inductive invalid_response : option response -> Prop :=
| NoResponse : invalid_response None
| NoCandidates (r : response) :
    candidates r = [] -> invalid_response (Some r)
| NoContent (r : response) (c : candidate) (cs : list candidate) :
    candidates r = c :: cs -> cand_content c = None -> invalid_response (Some r)
| NoParts (r : response) (c : candidate) (cs : list candidate) (ct : content) :
    candidates r = c :: cs -> cand_content c = Some ct -> parts ct = [] ->
    invalid_response (Some r).

(** *** Example worlds *)

Definition initial_state : state := mkState 0 [] [].

Definition lakeview_row : hotel_row :=
  mkRow "Lakeview" "Zurich" "mid"
        (IsDate (mkDate 2024 5 1)) (IsDate (mkDate 2024 5 3)) (Some true).

(** The answers of a store to the hotel statement, given its answers
    for the locations the driver sends. *)
Definition sent_only (answers : string -> outcome (list hotel_row))
  : string -> outcome (list hotel_row) :=
  fun location => if has_nul location then Raises NUL_MESSAGE else answers location.

Lemma sent_only_sent (answers : string -> outcome (list hotel_row))
    (location : string) (rows : list hotel_row) :
  sent_only answers location = Returns rows -> has_nul location = false.
Proof. unfold sent_only. destruct (has_nul location); [discriminate | reflexivity]. Qed.

(** A store with three cities and one hotel in Zurich, and a model that
    answers. *)
Definition swiss_world : World :=
  mkWorld (Returns tt)
          (Returns [Some "Bern"; Some "Geneva"; Some "Zurich"])
          (sent_only (fun location =>
             if (location =? "zurich")%string then Returns [lakeview_row] else Returns []))
          (fun _ => Returns tt)
          (fun _ => Returns (Some (mkResponse
             [mkCandidate (Some (mkContent [mkPart "Bern is the capital of Switzerland."]))])))
          (sent_only_sent _).

(** The store refuses connections; the model raises. *)
Definition down_world : World :=
  mkWorld (Raises "connection refused")
          (Raises "connection refused")
          (sent_only (fun _ => Raises "connection refused"))
          (fun _ => Returns tt)
          (fun _ => Raises "429 quota exceeded")
          (sent_only_sent _).

(** The store accepts connections and fails every statement; the model
    returns a response without candidates. *)
Definition failing_world : World :=
  mkWorld (Returns tt)
          (Raises "relation hotels does not exist")
          (sent_only (fun _ => Raises "relation hotels does not exist"))
          (fun _ => Returns tt)
          (fun _ => Returns (Some (mkResponse [])))
          (sent_only_sent _).

(** A store in which a city is NULL and in which the hotel of Rome has
    a check-in date in the year 999 and no check-out date. *)
Definition old_rome_row : hotel_row :=
  mkRow "Domus" "Rome" "high" (IsDate (mkDate 999 1 5)) (NotDate "None") (Some false).

Definition roman_world : World :=
  mkWorld (Returns tt)
          (Returns [Some "Bern"; None; Some "Rome"])
          (sent_only (fun location =>
             if (location =? "rome")%string then Returns [old_rome_row] else Returns []))
          (fun _ => Returns tt)
          (fun _ => Returns None)
          (sent_only_sent _).

Definition configured_agent : TravelAIAgent := mkAgent (Some (mkModel GEMINI_MODEL_NAME)).
Definition unconfigured_agent : TravelAIAgent := mkAgent None.

(** *** Statements, connections and processes *)

(** All the statements executed in a trace, with their parameters. *)
Fixpoint statements (evs : list event) : list (string * list string) :=
  match evs with
  | [] => []
  | EvExecute _ sql params :: evs' => (sql, params) :: statements evs'
  | _ :: evs' => statements evs'
  end.

(** The number of calls of [psycopg2.connect] in a trace. *)
Fixpoint connect_attempts (evs : list event) : nat :=
  match evs with
  | [] => 0
  | EvConnect _ :: evs' => S (connect_attempts evs')
  | _ :: evs' => connect_attempts evs'
  end.

(** The lines written to standard error in a trace. *)
Fixpoint stderr_lines (evs : list event) : list string :=
  match evs with
  | [] => []
  | EvStderr line :: evs' => line :: stderr_lines evs'
  | _ :: evs' => stderr_lines evs'
  end.

(** Every open connection is one that was handed out. *)
Definition handles_fresh (s : state) : Prop :=
  forall c, In c (open_conns s) -> c < next_conn s.

(** A string without upper-case letters and without white space at its
    ends. *)
Definition is_normal (s : string) : Prop := lower s = s /\ strip s = s.

(** How a call leaves the state [s'] it started in as [s]: after a
    lookup with statement [sql], and after the fallback for [prompt]. *)
Definition lookup_outcome (s s' : state) (sql : string) (params : list string) : Prop :=
  (exists line, s' = logged s [EvConnect None; EvStderr line]) \/
  (exists note, is_print note = true /\ s' = after_lookup s sql params note) \/
  s' = after_raise s sql params.

Definition fallback_outcome (s s' : state) (prompt : string) : Prop :=
  s' = s \/
  exists notes,
    Forall (fun e => is_print e = true) notes /\
    s' = logged s (querying_note prompt :: EvGenerate (prompt_with_context prompt) :: notes).

(** The two error responses of the endpoint. *)
Definition NOT_INITIALIZED : http_response :=
  jsonify [("error", JStr "AI Agent not initialized. Please check server logs.")] 500.

Definition NO_QUERY : http_response :=
  jsonify [("error", JStr "No query provided in the request body.")] 400.

(** The warning [__init__] prints for an empty key. *)
Definition KEY_WARNING : string :=
  "Warning: Gemini API Key is not set, but the agent will now reject general queries anyway.".

(** ** Facts about the string methods *)

Section StringFacts.

Lemma append_nil_r (s : string) : s ++ "" = s.
Proof. induction s as [|c s IH]; simpl; [reflexivity | now rewrite IH]. Qed.

Lemma append_assoc (s t u : string) : (s ++ t) ++ u = s ++ (t ++ u).
Proof. induction s as [|c s IH]; simpl; [reflexivity | now rewrite IH]. Qed.

Lemma last_char_app (s t : string) : t <> "" -> last_char (s ++ t) = last_char t.
Proof.
  intros Ht. induction s as [|c s IH]; simpl; [reflexivity|].
  destruct (s ++ t) eqn:E; [|exact IH].
  destruct s; simpl in E; [congruence | discriminate].
Qed.

(** *** [strip] *)

Lemma lstrip_empty (s : string) : has_nonspace s = false -> lstrip s = "".
Proof.
  induction s as [|c s IH]; simpl; [reflexivity|].
  destruct (isspace c); simpl; [exact IH | discriminate].
Qed.

Lemma lstrip_nonempty (s : string) : has_nonspace s = true -> lstrip s <> "".
Proof.
  induction s as [|c s IH]; simpl; [discriminate|].
  destruct (isspace c); simpl; [exact IH | discriminate].
Qed.

Lemma lstrip_fixed (c : ascii) (s : string) :
  isspace c = false -> lstrip (String c s) = String c s.
Proof. intros H. simpl. now rewrite H. Qed.

Lemma lstrip_last (s : string) :
  lstrip s = "" \/ last_char (lstrip s) = last_char s.
Proof.
  induction s as [|c s IH]; simpl; [now left|].
  destruct (isspace c) eqn:Ec; [|now right].
  destruct IH as [IH|IH]; [now left|].
  destruct s; [now left | right].
  rewrite IH. reflexivity.
Qed.

Lemma rstrip_has_nonspace (s : string) : has_nonspace (rstrip s) = has_nonspace s.
Proof.
  induction s as [|c s IH]; simpl; [reflexivity|].
  destruct (rstrip s) as [|b r] eqn:E.
  - rewrite <- IH. destruct (isspace c) eqn:Ec; simpl; rewrite ?Ec; reflexivity.
  - rewrite <- IH. reflexivity.
Qed.

Lemma rstrip_last (s : string) :
  rstrip s = "" \/ exists c, last_char (rstrip s) = Some c /\ isspace c = false.
Proof.
  induction s as [|c s IH]; simpl; [now left|].
  destruct (rstrip s) as [|b r] eqn:E.
  - destruct (isspace c) eqn:Ec; [now left|right]. exists c. now split.
  - right. destruct IH as [IH|[d [Hd Hs]]]; [discriminate|].
    exists d. split; [|exact Hs]. exact Hd.
Qed.

Lemma rstrip_fixed (s : string) (c : ascii) :
  last_char s = Some c -> isspace c = false -> rstrip s = s.
Proof.
  induction s as [|a s IH]; [discriminate|].
  destruct s as [|b s].
  - simpl. intros [= ->] ->. reflexivity.
  - intros H Hc. change (rstrip (String a (String b s)))
      with (match rstrip (String b s) with
            | EmptyString => if isspace a then EmptyString else String a EmptyString
            | r => String a r
            end).
    rewrite (IH H Hc). reflexivity.
Qed.

Lemma rstrip_append_nl (s : string) : rstrip (s ++ nl) = rstrip s.
Proof. induction s as [|c s IH]; simpl; [reflexivity | now rewrite IH]. Qed.

Lemma strip_nonempty (s : string) : has_nonspace s = true -> strip s <> "".
Proof.
  intros H. unfold strip. apply lstrip_nonempty. now rewrite rstrip_has_nonspace.
Qed.

(** A stripped string is empty or ends with a character that is not
    white space. *)
Lemma strip_last (s : string) :
  strip s = "" \/ exists c, last_char (strip s) = Some c /\ isspace c = false.
Proof.
  unfold strip.
  destruct (lstrip_last (rstrip s)) as [H|H]; [now left|].
  destruct (rstrip_last s) as [E|[c [Hc Hs]]].
  - left. now rewrite E.
  - right. exists c. split; [congruence | exact Hs].
Qed.

(** A string that begins and ends with characters that are not white
    space loses exactly a trailing line feed when stripped. *)
Lemma strip_line_feed (a c : ascii) (s : string) :
  isspace a = false -> last_char (String a s) = Some c -> isspace c = false ->
  strip (String a s ++ nl) = String a s.
Proof.
  intros Ha Hl Hc. unfold strip.
  rewrite rstrip_append_nl, (rstrip_fixed _ _ Hl Hc).
  now apply lstrip_fixed.
Qed.

(** *** [startswith] and [replace] *)

Lemma prefix_split (p s : string) :
  String.prefix p s = true -> s = p ++ drop (String.length p) s.
Proof.
  revert s. induction p as [|a p IH]; intros s H; [reflexivity|].
  destruct s as [|b s]; [discriminate|].
  simpl in H. destruct (ascii_dec a b) as [->|]; [|discriminate].
  simpl. f_equal. now apply IH.
Qed.

Lemma length_drop (n : nat) (s : string) :
  String.length (drop n s) = String.length s - n.
Proof.
  revert s. induction n as [|n IH]; intros [|c s]; simpl; auto.
Qed.

(** Passing over [k] characters is the same as starting [k] characters
    further on. *)
Lemma replace_from_skip (old new : string) (k : nat) (s : string) :
  replace_from old new k s = replace_from old new 0 (drop k s).
Proof.
  revert k. induction s as [|c s IH]; intros [|k]; try reflexivity.
  simpl. apply IH.
Qed.

(** The recursion [replace] stands for: at an occurrence of [old] put
    [new] and go on behind the occurrence, otherwise keep the character. *)
Lemma replace_from_unfold (old new : string) (c : ascii) (s : string) :
  old <> "" ->
  replace_from old new 0 (String c s) =
  if String.prefix old (String c s)
  then new ++ replace_from old new 0 (drop (String.length old) (String c s))
  else String c (replace_from old new 0 s).
Proof.
  intros Hold.
  change (replace_from old new 0 (String c s))
    with (if String.prefix old (String c s)
          then new ++ replace_from old new (String.length old - 1) s
          else String c (replace_from old new 0 s)).
  destruct (String.prefix old (String c s)); [|reflexivity].
  rewrite replace_from_skip.
  destruct old as [|a old']; [congruence|].
  simpl. now rewrite Nat.sub_0_r.
Qed.

(** When [old] ends with white space and the text does not, removing
    the occurrences of [old] leaves a character that is not white space:
    the last character of the text lies in no occurrence. *)
Lemma replace_keeps_nonspace (old : string) (sp c : ascii) :
  last_char old = Some sp -> isspace sp = true -> isspace c = false ->
  forall (n : nat) (s : string),
    String.length s <= n -> last_char s = Some c ->
    has_nonspace (replace_from old "" 0 s) = true.
Proof.
  intros Hold Hsp Hc.
  assert (Hne : old <> "") by (intros ->; discriminate).
  induction n as [|n IH]; intros s Hn Hs.
  - destruct s; [discriminate | simpl in Hn; lia].
  - destruct s as [|b s]; [discriminate|].
    rewrite (replace_from_unfold _ _ _ _ Hne).
    destruct (String.prefix old (String b s)) eqn:Hp.
    + change (append "" ?x) with x.
      pose proof (prefix_split _ _ Hp) as Hsplit.
      set (rest := drop (String.length old) (String b s)) in *.
      assert (Hrest : rest <> "").
      { intros E. rewrite E, append_nil_r in Hsplit.
        rewrite Hsplit, Hold in Hs. injection Hs as ->. congruence. }
      apply IH.
      * unfold rest. rewrite length_drop.
        destruct old; [congruence | simpl in *; lia].
      * rewrite Hsplit, (last_char_app _ _ Hrest) in Hs. exact Hs.
    + change (has_nonspace (String b ?x)) with (negb (isspace b) || has_nonspace x).
      destruct s as [|b' s].
      * simpl in Hs. injection Hs as ->. now rewrite Hc.
      * rewrite IH; [apply orb_true_r | simpl in *; lia | exact Hs].
Qed.

End StringFacts.

(** ** Classification *)

Section Classification.

Variable user_query : string.

Lemma classify_list_cities :
  is_city_list_query (normalize user_query) = true ->
  classify user_query = ListCities.
Proof.
  unfold classify, is_city_list_query, normalize. intros ->. reflexivity.
Qed.

Lemma classify_hotels_in :
  startswith (normalize user_query) "hotels in " = true ->
  classify user_query =
  HotelsByLocation (strip (replace (normalize user_query) "hotels in " "")).
Proof.
  unfold classify. fold (normalize user_query). intros H. rewrite H.
  destruct (_ || _)%bool eqn:E; [|reflexivity].
  apply orb_true_iff in E. destruct E as [E|E];
    apply String.eqb_eq in E; rewrite E in H; discriminate.
Qed.

Lemma classify_find_hotels_in :
  startswith (normalize user_query) "find hotels in " = true ->
  classify user_query =
  HotelsByLocation (strip (replace (normalize user_query) "find hotels in " "")).
Proof.
  unfold classify. fold (normalize user_query). intros H. rewrite H.
  destruct (_ || _)%bool eqn:E.
  - apply orb_true_iff in E. destruct E as [E|E];
      apply String.eqb_eq in E; rewrite E in H; discriminate.
  - destruct (startswith (normalize user_query) "hotels in ") eqn:E'; [|reflexivity].
    apply prefix_split in E'. apply prefix_split in H.
    rewrite H in E'. discriminate.
Qed.

Lemma classify_classified : classified user_query (classify user_query).
Proof.
  unfold classify. fold (normalize user_query).
  fold (is_city_list_query (normalize user_query)).
  destruct (is_city_list_query (normalize user_query)) eqn:E1.
  - now constructor.
  - destruct (startswith (normalize user_query) "hotels in ") eqn:E2.
    + apply IsHotels; auto.
    + destruct (startswith (normalize user_query) "find hotels in ") eqn:E3.
      * apply IsHotels; auto.
      * now constructor.
Qed.

Lemma classify_hotels_inv (loc : string) :
  classify user_query = HotelsByLocation loc ->
  exists prefix,
    (prefix = "hotels in " \/ prefix = "find hotels in ") /\
    is_city_list_query (normalize user_query) = false /\
    startswith (normalize user_query) prefix = true /\
    loc = strip (replace (normalize user_query) prefix "").
Proof.
  intros H. pose proof classify_classified as C. rewrite H in C.
  inversion C as [|prefix Hp Hl Hs Heq|]; subst. exists prefix. auto.
Qed.

Lemma classify_unclassified_inv (t : string) :
  classify user_query = Unclassified t ->
  t = user_query /\
  is_city_list_query (normalize user_query) = false /\
  startswith (normalize user_query) "hotels in " = false /\
  startswith (normalize user_query) "find hotels in " = false.
Proof.
  intros H. pose proof classify_classified as C. rewrite H in C.
  inversion C; subst. auto.
Qed.

End Classification.

(** ** The catalog lookups *)

Section Lookups.

Variable w : World.

Lemma fold_left_snoc {A B : Type} (f : A -> B) (rows : list A) (acc : list B) :
  fold_left (fun acc row => (acc ++ [f row])%list) rows acc = (acc ++ map f rows)%list.
Proof.
  revert acc. induction rows as [|r rows IH]; intros acc; simpl.
  - now rewrite app_nil_r.
  - rewrite IH, <- app_assoc. reflexivity.
Qed.

Lemma filter_closed (c : connection) (l : list connection) :
  filter (fun c' => negb (Nat.eqb c' c)) (c :: l) =
  filter (fun c' => negb (Nat.eqb c' c)) l.
Proof. simpl. now rewrite Nat.eqb_refl. Qed.

Ltac run_lookup :=
  cbv [bind ret raise try_except try_finally emit print eprint with_cursor
       cursor_execute conn_close psycopg2_connect get_db_connection str_join
       ValueError TypeError is_psycopg2_error str_exn next_conn open_conns trace
       logged after_lookup after_raise existsb];
  cbv beta iota.

Lemma get_cities_refused (s : state) (msg : string) :
  pg_connect w = Raises msg ->
  _get_cities_from_db w s =
  (Ok [], logged s [EvConnect None;
                    EvStderr ("Error connecting to PostgreSQL database: " ++ msg)]).
Proof.
  intros H. unfold _get_cities_from_db. run_lookup. rewrite H.
  destruct s as [n o t]. cbv beta iota. now rewrite <- app_assoc.
Qed.

Lemma get_cities_connected (s : state) (u : unit) :
  pg_connect w = Returns u ->
  _get_cities_from_db w s =
  match pg_select_cities w with
  | Returns rows =>
      match first_none 0 rows with
      | None =>
          (Ok (strings_of rows),
           after_lookup s SQL_CITIES []
             (EvStdout ("Found cities: " ++ join ", " (strings_of rows))))
      | Some i =>
          (Raise (TypeError ("sequence item " ++ str_nat i ++
                             ": expected str instance, NoneType found")),
           after_raise s SQL_CITIES [])
      end
  | Raises msg =>
      (Ok [], after_lookup s SQL_CITIES []
                (EvStderr ("Error querying cities from DB: " ++ msg)))
  end.
Proof.
  intros H. unfold _get_cities_from_db. run_lookup. rewrite H.
  destruct s as [n o t]. cbv beta iota.
  destruct (pg_select_cities w) as [msg|rows]; cbv beta iota.
  - rewrite filter_closed, <- !app_assoc. reflexivity.
  - rewrite (fold_left_snoc (fun x => x)), map_id. change ([] ++ rows)%list with rows.
    destruct (first_none 0 rows) as [i|]; cbv beta iota;
      rewrite filter_closed, <- !app_assoc; reflexivity.
Qed.

Lemma get_hotels_refused (location : string) (s : state) (msg : string) :
  pg_connect w = Raises msg ->
  _get_hotels_by_location_from_db w location s =
  (Ok [], logged s [EvConnect None;
                    EvStderr ("Error connecting to PostgreSQL database: " ++ msg)]).
Proof.
  intros H. unfold _get_hotels_by_location_from_db. run_lookup. rewrite H.
  destruct s as [n o t]. cbv beta iota. now rewrite <- app_assoc.
Qed.

Lemma get_hotels_connected (location : string) (s : state) (u : unit) :
  pg_connect w = Returns u ->
  _get_hotels_by_location_from_db w location s =
  if has_nul location then
    (Raise (ValueError NUL_MESSAGE), after_raise s SQL_HOTELS [location])
  else
    match pg_select_hotels w location with
    | Returns rows =>
        (Ok (map hotel_of_row rows),
         after_lookup s SQL_HOTELS [location]
           (EvStdout ("Found " ++ str_nat (List.length (map hotel_of_row rows)) ++
                      " hotels in " ++ location ++ ".")))
    | Raises msg =>
        (Ok [], after_lookup s SQL_HOTELS [location]
                  (EvStderr ("Error querying hotels for " ++ location ++
                             " from DB: " ++ msg)))
    end.
Proof.
  intros H. unfold _get_hotels_by_location_from_db. run_lookup. rewrite H.
  destruct s as [n o t]. cbv beta iota. rewrite orb_false_r.
  destruct (has_nul location); cbv beta iota.
  - rewrite filter_closed, <- !app_assoc. reflexivity.
  - destruct (pg_select_hotels w location) as [msg|rows]; cbv beta iota.
    + rewrite filter_closed, <- !app_assoc. reflexivity.
    + rewrite (fold_left_snoc hotel_of_row). change ([] ++ ?l)%list with l.
      rewrite filter_closed, <- !app_assoc. reflexivity.
Qed.

(** A location for which the store returns rows holds no NUL. *)
Lemma rows_without_nul (location : string) (rows : list hotel_row) :
  pg_select_hotels w location = Returns rows -> has_nul location = false.
Proof. apply pg_rows_were_sent. Qed.

End Lookups.

(** ** The responses of [handle_query] *)

Section Responses.

Variables (w : World) (self : TravelAIAgent) (user_query : string).

Lemma handle_query_city_list (s : state) :
  is_city_list_query (normalize user_query) = true ->
  handle_query w self user_query s =
  (cities <- _get_cities_from_db w ;; ret (cities_response cities)) s.
Proof.
  unfold handle_query, is_city_list_query, normalize. intros ->.
  unfold cities_response, bind, ret.
  destruct (_get_cities_from_db w s) as [[[|c cs]|e] s']; reflexivity.
Qed.

Lemma handle_query_hotels (prefix : string) (s : state) :
  prefix = "hotels in " \/ prefix = "find hotels in " ->
  is_city_list_query (normalize user_query) = false ->
  startswith (normalize user_query) prefix = true ->
  let location := strip (replace (normalize user_query) prefix "") in
  handle_query w self user_query s =
  (hotels <- _get_hotels_by_location_from_db w location ;;
   ret (hotels_response (heading_of prefix) location hotels)) s.
Proof.
  intros Hp Hl Hs location. unfold handle_query.
  fold (normalize user_query).
  change (((normalize user_query =? "list cities")%string
           || (normalize user_query =? "show cities")%string)%bool)
    with (is_city_list_query (normalize user_query)).
  rewrite Hl. destruct Hp as [-> | ->].
  - rewrite Hs. fold location. unfold hotels_response, bind, ret.
    destruct (_get_hotels_by_location_from_db w location s) as [[[|h hs]|e] s'];
      reflexivity.
  - destruct (startswith (normalize user_query) "hotels in ") eqn:E.
    + apply prefix_split in E. apply prefix_split in Hs.
      rewrite Hs in E. discriminate.
    + rewrite Hs. fold location. unfold hotels_response, bind, ret.
      destruct (_get_hotels_by_location_from_db w location s) as [[[|h hs]|e] s'];
        reflexivity.
Qed.

Lemma handle_query_fallback (s : state) :
  classify user_query = Unclassified user_query ->
  handle_query w self user_query s = _query_gemini w self user_query s.
Proof.
  intros H. apply classify_unclassified_inv in H.
  destruct H as (_ & Hl & H1 & H2).
  unfold handle_query. fold (normalize user_query).
  change (((normalize user_query =? "list cities")%string
           || (normalize user_query =? "show cities")%string)%bool)
    with (is_city_list_query (normalize user_query)).
  rewrite Hl, H1, H2. unfold bind, ret.
  destruct (_query_gemini w self user_query s) as [[r|e] s']; reflexivity.
Qed.

(** *** The fallback *)

Lemma query_gemini_unconfigured (prompt : string) (s : state) :
  model self = None ->
  _query_gemini w self prompt s =
  (Ok "AI functionality is not available due to missing or invalid API key.", s).
Proof. unfold _query_gemini. intros ->. reflexivity. Qed.

Lemma query_gemini_configured (m : GenerativeModel) (prompt : string) (s : state) :
  model self = Some m ->
  _query_gemini w self prompt s =
  match genai_generate w (prompt_with_context prompt) with
  | Raises msg =>
      (Ok ("Error communicating with AI: " ++ msg),
       logged s [querying_note prompt; EvGenerate (prompt_with_context prompt);
                 EvStderr ("Error querying Gemini AI: " ++ msg)])
  | Returns r =>
      match first_part r with
      | Some p =>
          (Ok (text p),
           logged s [querying_note prompt; EvGenerate (prompt_with_context prompt);
                     EvStdout "Gemini AI response received."])
      | None =>
          (Ok "Gemini AI did not return a valid response.",
           logged s [querying_note prompt; EvGenerate (prompt_with_context prompt)])
      end
  end.
Proof.
  unfold _query_gemini. intros ->.
  cbv [bind ret raise try_except emit print eprint generate_content is_exception
       str_exn logged next_conn open_conns trace].
  cbv beta iota. fold (prompt_with_context prompt). fold (querying_note prompt).
  destruct s as [n o t]. cbv beta iota.
  destruct (genai_generate w (prompt_with_context prompt)) as [msg|r]; cbv beta iota.
  - rewrite <- !app_assoc. reflexivity.
  - destruct (first_part r); cbv beta iota; rewrite <- !app_assoc; reflexivity.
Qed.

End Responses.

(** The agent has no model exactly when setting up the client raised. *)
Lemma init_model (w : World) (api_key : string) (s : state) :
  exists self s',
    TravelAIAgent_init w api_key s = (Ok self, s') /\
    (model self = None <-> exists msg, genai_setup w api_key = Raises msg).
Proof.
  unfold TravelAIAgent_init.
  cbv [bind ret raise try_except emit eprint is_exception].
  destruct (api_key =? "")%string; destruct (genai_setup w api_key) as [msg|u];
    eexists; eexists; (split; [reflexivity|]); cbn [model];
    split; intros H; try discriminate; try reflexivity;
    try (now exists msg); destruct H as (m & H); discriminate.
Qed.

(** ** The hotel listing *)

Section Listing.

Lemma hotel_line_listing (h : hotel) : hotel_line h = listing_line h ++ nl.
Proof.
  unfold hotel_line, listing_line, status_word, truthy.
  rewrite !append_assoc. destruct (booked h) as [[|]|]; reflexivity.
Qed.

Lemma last_char_app_some (s t : string) (c : ascii) :
  last_char t = Some c -> last_char (s ++ t) = Some c.
Proof.
  intros H. rewrite last_char_app; [exact H|]. intros ->. discriminate.
Qed.

Lemma listing_line_last (h : hotel) :
  exists c, last_char (listing_line h) = Some c /\ isspace c = false.
Proof.
  unfold listing_line, status_word.
  destruct (booked h) as [[|]|];
    eexists; (split; [repeat apply last_char_app_some; reflexivity | reflexivity]).
Qed.

Lemma join_cons (sep x y : string) (rest : list string) :
  join sep (x :: y :: rest) = x ++ sep ++ join sep (y :: rest).
Proof. reflexivity. Qed.

Lemma join_last (x : string) (lines : list string) :
  (forall l, In l (x :: lines) ->
             exists c, last_char l = Some c /\ isspace c = false) ->
  exists c, last_char (join nl (x :: lines)) = Some c /\ isspace c = false.
Proof.
  revert x. induction lines as [|l lines IH]; intros x H.
  - apply H. now left.
  - destruct (IH l) as (c & Hc & Hs).
    { intros l' Hl'. apply H. now right. }
    exists c. split; [|exact Hs].
    rewrite join_cons. now repeat apply last_char_app_some.
Qed.

(** The loop over [hotels] writes one line after the other, each closed
    by a line feed. *)
Lemma fold_hotel_lines (hotels : list hotel) (acc : string) :
  fold_left (fun acc hotel => acc ++ hotel_line hotel) hotels (acc ++ nl) =
  join nl (acc :: map listing_line hotels) ++ nl.
Proof.
  revert acc. induction hotels as [|h hotels IH]; intros acc; [reflexivity|].
  cbn [fold_left map]. rewrite hotel_line_listing, <- append_assoc, IH.
  rewrite join_cons. f_equal.
  destruct hotels as [|h' hotels]; cbn [map].
  - cbn [join String.concat]. now rewrite append_assoc.
  - rewrite !join_cons, !append_assoc. reflexivity.
Qed.

(** The listing: the heading line and one line for every hotel, in the
    order of the lookup, with no line feed at the end. *)
Lemma hotels_response_listing (heading location : string) (h : hotel)
    (hotels : list hotel) (a : ascii) (heading' : string) :
  heading = String a heading' -> isspace a = false ->
  hotels_response heading location (h :: hotels) =
  join nl ((heading ++ title location ++ ":") :: map listing_line (h :: hotels)).
Proof.
  intros Hh Ha. unfold hotels_response.
  replace (heading ++ title location ++ ":" ++ nl)
    with ((heading ++ title location ++ ":") ++ nl)
    by (now rewrite !append_assoc).
  rewrite fold_hotel_lines.
  destruct (join_last (heading ++ title location ++ ":") (map listing_line (h :: hotels)))
    as (c & Hc & Hs).
  { intros l [<-|Hl].
    - exists ":"%char. split; [|reflexivity].
      now repeat apply last_char_app_some.
    - apply in_map_iff in Hl. destruct Hl as (h' & <- & _).
      apply listing_line_last. }
  remember (map listing_line (h :: hotels)) as lines eqn:El.
  assert (E : exists rest, join nl ((heading ++ title location ++ ":") :: lines)
                           = String a rest).
  { rewrite El. cbn [map]. rewrite join_cons, Hh. eexists. reflexivity. }
  destruct E as (rest & E). rewrite E in *.
  exact (strip_line_feed a c rest Ha Hc Hs).
Qed.

Lemma digit_isdigit (n : nat) : isdigit (digit n) = true.
Proof.
  unfold digit. pose proof (Nat.mod_upper_bound n 10) as H.
  remember (n mod 10) as k eqn:Ek. clear Ek.
  do 10 (destruct k as [|k]; [reflexivity|]). lia.
Qed.

Lemma str_nat_digits_step (fuel n : nat) (acc : string) :
  str_nat_digits (S fuel) n acc =
  if (n <? 10)%nat then String (digit n) acc
  else str_nat_digits fuel (n / 10) (String (digit n) acc).
Proof. reflexivity. Qed.

(** A year of four digits is written with four digits. *)
Lemma str_nat_four_digits (n : nat) :
  1000 <= n < 10 * 1000 ->
  str_nat n =
  String (digit (n / 10 / 10 / 10))
    (String (digit (n / 10 / 10)) (String (digit (n / 10)) (String (digit n) ""))).
Proof.
  intros H. unfold str_nat.
  assert (Hf : exists f, n = S (S (S f))) by (exists (n - 3); lia).
  destruct Hf as (f & Hf). rewrite Hf at 1. rewrite !str_nat_digits_step.
  assert (H1 : (n <? 10)%nat = false) by (apply Nat.ltb_ge; lia).
  assert (H2 : (n / 10 <? 10)%nat = false).
  { apply Nat.ltb_ge. apply Nat.div_le_lower_bound; lia. }
  assert (H3 : (n / 10 / 10 <? 10)%nat = false).
  { apply Nat.ltb_ge. rewrite Nat.Div0.div_div.
    apply Nat.div_le_lower_bound; lia. }
  assert (H4 : (n / 10 / 10 / 10 <? 10)%nat = true).
  { apply Nat.ltb_lt. rewrite !Nat.Div0.div_div.
    apply Nat.Div0.div_lt_upper_bound; lia. }
  now rewrite H1, H2, H3, H4.
Qed.

(** A [date] with a year of four digits is written in the shape
    [YYYY-MM-DD]. *)
Lemma strftime_shape (d : date) :
  1000 <= year d < 10 * 1000 -> is_YYYY_MM_DD (strftime_Y_m_d d) = true.
Proof.
  intros H. unfold strftime_Y_m_d, zero_padded2, is_YYYY_MM_DD.
  rewrite (str_nat_four_digits _ H).
  cbn [append list_ascii_of_string]. rewrite !digit_isdigit. reflexivity.
Qed.

End Listing.

(** ** Properties of the routing *)

Lemma lstrip_has_nonspace (s : string) : has_nonspace (lstrip s) = has_nonspace s.
Proof.
  induction s as [|c s IH]; [reflexivity|]. simpl.
  destruct (isspace c) eqn:E; [exact IH|]. simpl. now rewrite E.
Qed.

Lemma strip_keeps_nonspace (s : string) : has_nonspace (strip s) = has_nonspace s.
Proof. unfold strip. now rewrite lstrip_has_nonspace, rstrip_has_nonspace. Qed.

(** When the text after the leading prefix holds no further occurrence
    of the prefix, the location is that text, stripped. *)
Lemma location_is_remainder (prefix normalized : string) :
  prefix <> "" ->
  startswith normalized prefix = true ->
  let rest := drop (String.length prefix) normalized in
  replace rest prefix "" = rest ->
  strip (replace normalized prefix "") = remainder_after_prefix prefix normalized.
Proof.
  intros Hne Hs rest Hrest. unfold remainder_after_prefix. fold rest. f_equal.
  unfold startswith in Hs. pose proof (prefix_split _ _ Hs) as E. fold rest in E.
  rewrite <- Hrest. unfold replace.
  destruct prefix as [|a prefix']; [congruence|].
  destruct normalized as [|c t]; [discriminate|].
  rewrite (replace_from_unfold _ _ _ _ Hne), Hs. reflexivity.
Qed.

Example classify_hotels_in_Zurich :
  classify "hotels in Zurich" = HotelsByLocation "zurich" /\
  classify "HOTELS IN zurich" = HotelsByLocation "zurich" /\
  classify "  Find Hotels In Zurich " = HotelsByLocation "zurich".
Proof. repeat split; reflexivity. Qed.

Example classify_list_cities_variants :
  classify "list cities" = ListCities /\ classify "  LIST CITIES  " = ListCities /\
  classify "Show Cities" = ListCities.
Proof. repeat split; reflexivity. Qed.

(** C1.  The location of a hotel query is NOT always the remainder of the
    normalised text after the leading prefix: [replace] removes every
    occurrence of the prefix, not only the leading one.  For the query
    "hotels in hotels in rome" the normalised text starts with
    "hotels in ", the remainder after that prefix is "hotels in rome", and
    the location the query is classified with, and the lookup is called
    with, is "rome". *)
Theorem C1_location_drops_every_occurrence :
  startswith (normalize "hotels in hotels in rome") "hotels in " = true /\
  remainder_after_prefix "hotels in " (normalize "hotels in hotels in rome")
    = "hotels in rome" /\
  classify "hotels in hotels in rome" = HotelsByLocation "rome" /\
  remainder_after_prefix "hotels in " (normalize "Hotels in Zurich or hotels in Bern")
    = "zurich or hotels in bern" /\
  classify "Hotels in Zurich or hotels in Bern" = HotelsByLocation "zurich or bern" /\
  remainder_after_prefix "find hotels in " (normalize "find hotels in the find hotels in area")
    = "the find hotels in area" /\
  classify "find hotels in the find hotels in area" = HotelsByLocation "the area" /\
  queries_on 0
    (trace (snd (handle_query swiss_world unconfigured_agent "hotels in hotels in rome"
                   initial_state)))
    = [(SQL_HOTELS, ["rome"])] /\
  fst (handle_query swiss_world unconfigured_agent "hotels in hotels in rome" initial_state)
    = Ok "No hotels found in Rome in our database, or an error occurred.".
Proof. repeat split; reflexivity. Qed.

(** The location is the remainder after the leading prefix, stripped,
    for every hotel query whose remainder holds no further occurrence of
    the prefix. *)
Theorem location_is_remainder_without_inner_occurrence (user_query prefix : string) :
  prefix = "hotels in " \/ prefix = "find hotels in " ->
  startswith (normalize user_query) prefix = true ->
  replace (drop (String.length prefix) (normalize user_query)) prefix ""
    = drop (String.length prefix) (normalize user_query) ->
  classify user_query =
  HotelsByLocation (remainder_after_prefix prefix (normalize user_query)).
Proof.
  intros Hp Hs Hr.
  rewrite <- (location_is_remainder prefix (normalize user_query)); auto.
  - destruct Hp as [-> | ->];
      [now apply classify_hotels_in | now apply classify_find_hotels_in].
  - destruct Hp as [-> | ->]; discriminate.
Qed.

Lemma location_is_remainder_without_inner_occurrence_witness :
  classify "HOTELS IN zurich" =
  HotelsByLocation (remainder_after_prefix "hotels in " (normalize "HOTELS IN zurich")).
Proof.
  exact (location_is_remainder_without_inner_occurrence "HOTELS IN zurich" "hotels in "
           (or_introl eq_refl) eq_refl eq_refl).
Defined.

(** C9.  Whenever a query is classified as a hotel query, through either
    prefix, the location is not empty and holds a character that is not
    white space, and it is this location that [handle_query] calls the
    hotel lookup with. *)
Theorem C9_location_not_empty (user_query loc : string) :
  classify user_query = HotelsByLocation loc ->
  loc <> "" /\
  has_nonspace loc = true /\
  exists heading, forall w self s,
    handle_query w self user_query s =
    (hotels <- _get_hotels_by_location_from_db w loc ;;
     ret (hotels_response heading loc hotels)) s.
Proof.
  intros H. apply classify_hotels_inv in H.
  destruct H as (prefix & Hp & Hl & Hs & ->).
  assert (Hn : has_nonspace (replace (normalize user_query) prefix "") = true).
  { destruct (strip_last (lower user_query)) as [E|(c & Hc & Hsp)];
      fold (normalize user_query) in *.
    - rewrite E in Hs. destruct Hp as [-> | ->]; discriminate.
    - destruct Hp as [-> | ->]; unfold replace;
        apply (replace_keeps_nonspace _ " "%char c)
          with (n := String.length (normalize user_query));
        auto. }
  split; [|split].
  - now apply strip_nonempty.
  - now rewrite strip_keeps_nonspace.
  - exists (heading_of prefix). intros w self s.
    now apply handle_query_hotels.
Qed.

Lemma C9_location_not_empty_witness :
  classify " Hotels in  New York " = HotelsByLocation "new york" /\
  "new york" <> "".
Proof.
  split; [reflexivity|].
  exact (proj1 (C9_location_not_empty " Hotels in  New York " "new york" eq_refl)).
Defined.

(** C2.  For a query whose normalised form is "list cities" or
    "show cities", when the city lookup returns a sequence of cities that
    is not empty, the answer is "Available cities: " followed by the cities
    joined by ", " and a full stop. *)
Theorem C2_city_list_answer (w : World) (self : TravelAIAgent) (user_query : string)
    (s s' : state) (cities : list string) :
  normalize user_query = "list cities" \/ normalize user_query = "show cities" ->
  _get_cities_from_db w s = (Ok cities, s') ->
  cities <> [] ->
  handle_query w self user_query s =
  (Ok ("Available cities: " ++ join ", " cities ++ "."), s').
Proof.
  intros Hq Hl Hne.
  rewrite handle_query_city_list.
  - unfold bind, ret. rewrite Hl. destruct cities; [congruence | reflexivity].
  - unfold is_city_list_query. destruct Hq as [-> | ->]; reflexivity.
Qed.

Lemma C2_city_list_answer_witness :
  handle_query swiss_world unconfigured_agent "  List Cities " initial_state =
  (Ok "Available cities: Bern, Geneva, Zurich.",
   after_lookup initial_state SQL_CITIES []
     (EvStdout "Found cities: Bern, Geneva, Zurich")).
Proof.
  apply (C2_city_list_answer swiss_world unconfigured_agent "  List Cities "
           initial_state _ ["Bern"; "Geneva"; "Zurich"]).
  - left. reflexivity.
  - reflexivity.
  - discriminate.
Defined.

(** C4, as the code has it.  For a hotel query, a failure of the store
    that is a [psycopg2.Error] (the connection is refused, or the statement
    raises it) and a result without rows give the same answer, "No hotels
    found in {location in title case} in our database, or an error
    occurred.", and the call returns; for a refused connection this holds
    for every location, for a connection that is accepted for every
    location without NUL.  For a location with NUL on an accepted
    connection the driver raises [ValueError], which the handler for
    [psycopg2.Error] does not catch: it leaves [handle_query]. *)
Theorem C4_no_hotels_answer (w : World) (self : TravelAIAgent) (user_query : string)
    (s : state) (loc : string) :
  classify user_query = HotelsByLocation loc ->
  ((exists msg, pg_connect w = Raises msg) \/
   (has_nul loc = false /\
    ((exists msg, pg_select_hotels w loc = Raises msg) \/
     pg_select_hotels w loc = Returns [])) ->
   exists s',
     handle_query w self user_query s =
     (Ok ("No hotels found in " ++ title loc ++ " in our database, or an error occurred."),
      s')) /\
  (forall u, pg_connect w = Returns u -> has_nul loc = true ->
   exists s', handle_query w self user_query s = (Raise (ValueError NUL_MESSAGE), s')).
Proof.
  intros H. apply classify_hotels_inv in H.
  destruct H as (prefix & Hp & Hl & Hs & ->).
  set (loc := strip (replace (normalize user_query) prefix "")) in *.
  split.
  - intros Hw.
    rewrite (handle_query_hotels w self user_query prefix s Hp Hl Hs). fold loc.
    unfold bind, ret.
    destruct Hw as [(msg & Hc) | (Hn & Hw)].
    + rewrite (get_hotels_refused w loc s msg Hc). eexists. reflexivity.
    + destruct (pg_connect w) as [msg|u] eqn:Hc.
      * rewrite (get_hotels_refused w loc s msg Hc). eexists. reflexivity.
      * rewrite (get_hotels_connected w loc s u Hc), Hn.
        destruct Hw as [(msg & ->) | ->]; eexists; reflexivity.
  - intros u Hc Hn.
    rewrite (handle_query_hotels w self user_query prefix s Hp Hl Hs). fold loc.
    unfold bind. rewrite (get_hotels_connected w loc s u Hc), Hn.
    eexists. reflexivity.
Qed.

Lemma C4_no_hotels_answer_witness :
  (exists s', handle_query swiss_world unconfigured_agent "hotels in atlantis" initial_state =
     (Ok "No hotels found in Atlantis in our database, or an error occurred.", s')) /\
  (exists s', handle_query failing_world unconfigured_agent "hotels in atlantis" initial_state =
     (Ok "No hotels found in Atlantis in our database, or an error occurred.", s')) /\
  (exists s', handle_query down_world unconfigured_agent "Find hotels in ATLANTIS" initial_state =
     (Ok "No hotels found in Atlantis in our database, or an error occurred.", s')).
Proof.
  split; [|split].
  - exact (proj1 (C4_no_hotels_answer swiss_world unconfigured_agent "hotels in atlantis"
                    initial_state "atlantis" eq_refl)
             (or_intror (conj eq_refl (or_intror eq_refl)))).
  - exact (proj1 (C4_no_hotels_answer failing_world unconfigured_agent "hotels in atlantis"
                    initial_state "atlantis" eq_refl)
             (or_intror (conj eq_refl
                (or_introl (ex_intro _ "relation hotels does not exist" eq_refl))))).
  - exact (proj1 (C4_no_hotels_answer down_world unconfigured_agent "Find hotels in ATLANTIS"
                    initial_state "atlantis" eq_refl)
             (or_introl (ex_intro _ "connection refused" eq_refl))).
Defined.

(** C4 as stated fails: a failure on the side of the store does leave
    [handle_query] for some locations.  The query "hotels in a", NUL, "b"
    is a hotel query for the location "a", NUL, "b"; with a store that
    accepts the connection, be it one that answers or one whose every
    statement fails, the call raises the driver's [ValueError] instead of
    returning the "No hotels found" answer. *)
Lemma C4_nul_location_raises :
  classify ("hotels in a" ++ String NUL "b") = HotelsByLocation (String "a" (String NUL "b")) /\
  fst (handle_query swiss_world unconfigured_agent ("hotels in a" ++ String NUL "b")
         initial_state)
    = Raise (ValueError "A string literal cannot contain NUL (0x00) characters.") /\
  fst (handle_query failing_world unconfigured_agent ("hotels in a" ++ String NUL "b")
         initial_state)
    = Raise (ValueError "A string literal cannot contain NUL (0x00) characters.").
Proof. repeat split. Qed.

(** C3, as the code has it.  For a hotel query whose lookup returns
    rows, the answer is the heading line followed by one line for every
    record, in order, and each of these lines reads
    "- {name} ({price_tier}) - Check-in: {check-in}, Check-out: {check-out} Status: {word}"
    with the word "Booked" when the booked flag is true and "Available"
    otherwise.  A date column that holds a date with a year of four digits
    is written as YYYY-MM-DD; a column that holds no date is written as
    its [str], "None" for NULL. *)
Theorem C3_hotel_listing_lines (w : World) (self : TravelAIAgent) (user_query : string)
    (s : state) (loc : string) (rows : list hotel_row) :
  classify user_query = HotelsByLocation loc ->
  pg_connect w = Returns tt ->
  pg_select_hotels w loc = Returns rows ->
  rows <> [] ->
  (exists heading s',
     (heading = "Hotels in " \/ heading = "Hotels found in ") /\
     handle_query w self user_query s =
     (Ok (join nl ((heading ++ title loc ++ ":")
                   :: map (fun row => listing_line (hotel_of_row row)) rows)), s')) /\
  (forall row, In row rows ->
     listing_line (hotel_of_row row) =
       "- " ++ row0 row ++ " (" ++ row2 row ++ ") - Check-in: " ++
       date_cell_str (row3 row) ++ ", Check-out: " ++ date_cell_str (row4 row) ++
       " Status: " ++ (if truthy (row5 row) then "Booked" else "Available")) /\
  (forall row d, In row rows -> 1000 <= year d < 10 * 1000 ->
     (row3 row = IsDate d -> is_YYYY_MM_DD (checkin_date (hotel_of_row row)) = true) /\
     (row4 row = IsDate d -> is_YYYY_MM_DD (checkout_date (hotel_of_row row)) = true)) /\
  (forall row v, In row rows ->
     (row3 row = NotDate v -> checkin_date (hotel_of_row row) = v) /\
     (row4 row = NotDate v -> checkout_date (hotel_of_row row) = v)).
Proof.
  intros H Hc Hr Hne. split; [|split; [|split]].
  - apply classify_hotels_inv in H.
    destruct H as (prefix & Hp & Hl & Hs & ->).
    rewrite (handle_query_hotels w self user_query prefix s Hp Hl Hs).
    set (loc := strip (replace (normalize user_query) prefix "")) in *.
    unfold bind, ret.
    rewrite (get_hotels_connected w loc s tt Hc), (rows_without_nul w loc rows Hr), Hr.
    destruct rows as [|row rows]; [congruence|].
    exists (heading_of prefix). eexists. split.
    + destruct Hp as [-> | ->]; [now left | now right].
    + f_equal. f_equal. rewrite <- (map_map hotel_of_row listing_line). cbn [map].
      destruct Hp as [-> | ->];
        eapply hotels_response_listing; reflexivity.
  - intros row _. unfold listing_line, hotel_of_row, status_word, truthy.
    cbn [name price_tier checkin_date checkout_date booked].
    destruct (row5 row) as [[|]|]; reflexivity.
  - intros row d _ Hy. unfold hotel_of_row. cbn [checkin_date checkout_date].
    split; intros ->; now apply strftime_shape.
  - intros row v _. unfold hotel_of_row. cbn [checkin_date checkout_date].
    split; intros ->; reflexivity.
Qed.

Lemma C3_hotel_listing_lines_witness :
  (fst (handle_query swiss_world unconfigured_agent "hotels in Zurich" initial_state) =
   Ok ("Hotels in Zurich:" ++ nl ++
       "- Lakeview (mid) - Check-in: 2024-05-01, Check-out: 2024-05-03 Status: Booked")) /\
  ((exists heading s',
     (heading = "Hotels in " \/ heading = "Hotels found in ") /\
     handle_query swiss_world unconfigured_agent "hotels in Zurich" initial_state =
     (Ok (join nl ((heading ++ title "zurich" ++ ":")
                   :: map (fun row => listing_line (hotel_of_row row)) [lakeview_row])),
      s')) /\
   (forall row, In row [lakeview_row] ->
     listing_line (hotel_of_row row) =
       "- " ++ row0 row ++ " (" ++ row2 row ++ ") - Check-in: " ++
       date_cell_str (row3 row) ++ ", Check-out: " ++ date_cell_str (row4 row) ++
       " Status: " ++ (if truthy (row5 row) then "Booked" else "Available")) /\
   (forall row d, In row [lakeview_row] -> 1000 <= year d < 10 * 1000 ->
     (row3 row = IsDate d -> is_YYYY_MM_DD (checkin_date (hotel_of_row row)) = true) /\
     (row4 row = IsDate d -> is_YYYY_MM_DD (checkout_date (hotel_of_row row)) = true)) /\
   (forall row v, In row [lakeview_row] ->
     (row3 row = NotDate v -> checkin_date (hotel_of_row row) = v) /\
     (row4 row = NotDate v -> checkout_date (hotel_of_row row) = v))).
Proof.
  split; [reflexivity|].
  apply (C3_hotel_listing_lines swiss_world unconfigured_agent "hotels in Zurich"
           initial_state "zurich" [lakeview_row]).
  - reflexivity.
  - reflexivity.
  - reflexivity.
  - discriminate.
Defined.

(** C3 as stated fails: the dates of a listing line are not always of
    the shape YYYY-MM-DD.  The hotel the store returns for Rome has a
    check-in date in the year 999, written "999-01-05", and NULL as its
    check-out date, written "None". *)
Lemma C3_dates_not_always_iso :
  fst (handle_query roman_world unconfigured_agent "hotels in Rome" initial_state) =
    Ok ("Hotels in Rome:" ++ nl ++
        "- Domus (high) - Check-in: 999-01-05, Check-out: None Status: Available") /\
  checkin_date (hotel_of_row old_rome_row) = "999-01-05" /\
  is_YYYY_MM_DD (checkin_date (hotel_of_row old_rome_row)) = false /\
  checkout_date (hotel_of_row old_rome_row) = "None" /\
  is_YYYY_MM_DD (checkout_date (hotel_of_row old_rome_row)) = false.
Proof. repeat split. Qed.

(** ** The fallback *)

Lemma generate_calls_app (l l' : list event) :
  generate_calls (l ++ l') = (generate_calls l ++ generate_calls l')%list.
Proof.
  induction l as [|e l IH]; [reflexivity|].
  destruct e; simpl; now rewrite IH.
Qed.

Lemma invalid_response_first_part (r : option response) :
  invalid_response r <-> first_part r = None.
Proof.
  split.
  - intros H. destruct H as [|r E|r c cs E E'|r c cs ct E E' E''];
      unfold first_part; rewrite ?E, ?E', ?E''; reflexivity.
  - unfold first_part. destruct r as [r|]; [|constructor].
    destruct (candidates r) as [|c cs] eqn:E; [intros _; now apply NoCandidates|].
    destruct (cand_content c) as [ct|] eqn:E'; [|intros _; now eapply NoContent; eauto].
    destruct (parts ct) as [|p ps] eqn:E''; [|discriminate].
    intros _. eapply NoParts; eauto.
Qed.

(** C5, as the code has it.  For a query that matches none of the
    patterns: when the agent has a model, [generate_content] is called
    exactly once, with the fixed travel instruction followed by the query
    text as it was given (not normalised), and when the call returns a
    response with a first part the answer is the text of that part,
    unchanged; when the agent has no model, [generate_content] is not
    called. *)
Theorem C5_fallback_called_once_when_configured (w : World) (self : TravelAIAgent)
    (user_query : string) (s : state) :
  classify user_query = Unclassified user_query ->
  exists r s',
    handle_query w self user_query s = (r, s') /\
    match model self with
    | Some _ =>
        generate_calls (trace s') =
          (generate_calls (trace s) ++ [prompt_with_context user_query])%list /\
        (forall resp p,
            genai_generate w (prompt_with_context user_query) = Returns resp ->
            first_part resp = Some p ->
            r = Ok (text p))
    | None => generate_calls (trace s') = generate_calls (trace s)
    end.
Proof.
  intros H. rewrite (handle_query_fallback w self user_query s H).
  destruct (model self) as [m|] eqn:Em.
  - rewrite (query_gemini_configured w self m user_query s Em).
    destruct (genai_generate w (prompt_with_context user_query)) as [msg|resp].
    + eexists. eexists. split; [reflexivity|]. split.
      * unfold logged. cbn [trace]. rewrite generate_calls_app. reflexivity.
      * discriminate.
    + destruct (first_part resp) as [p|] eqn:Ep.
      * eexists. eexists. split; [reflexivity|]. split.
        -- unfold logged. cbn [trace]. rewrite generate_calls_app. reflexivity.
        -- intros resp' p' [= <-] Hp. congruence.
      * eexists. eexists. split; [reflexivity|]. split.
        -- unfold logged. cbn [trace]. rewrite generate_calls_app. reflexivity.
        -- intros resp' p' [= <-] Hp. congruence.
  - rewrite (query_gemini_unconfigured w self user_query s Em).
    eexists. eexists. split; reflexivity.
Qed.

Lemma C5_fallback_called_once_when_configured_witness :
  exists r s',
    handle_query swiss_world configured_agent "What is Bern like?" initial_state = (r, s') /\
    (generate_calls (trace s') =
       ([] ++ [prompt_with_context "What is Bern like?"])%list /\
     (forall resp p,
         genai_generate swiss_world (prompt_with_context "What is Bern like?")
           = Returns resp ->
         first_part resp = Some p ->
         r = Ok (text p))).
Proof.
  exact (C5_fallback_called_once_when_configured swiss_world configured_agent
           "What is Bern like?" initial_state eq_refl).
Defined.

(** C5 as stated fails: without a model the fallback does not call
    [generate_content] at all.  The query "What is Bern like?" matches no
    pattern, and with an agent that has no model the answer is the fixed
    message and the trace holds no call, not one. *)
Lemma C5_not_called_when_unconfigured :
  classify "What is Bern like?" = Unclassified "What is Bern like?" /\
  handle_query swiss_world unconfigured_agent "What is Bern like?" initial_state =
    (Ok "AI functionality is not available due to missing or invalid API key.",
     initial_state) /\
  List.length
    (generate_calls
       (trace (snd (handle_query swiss_world unconfigured_agent "What is Bern like?"
                      initial_state)))) <> 1.
Proof. repeat split; try reflexivity. discriminate. Qed.

(** C6.  On the fallback path: without a model the answer is one fixed
    message, whatever the world does; when the call of the model raises,
    the answer is "Error communicating with AI: " followed by the text of
    the failure; the two answers are never the same; and in every case the
    call returns an answer, it does not raise. *)
Theorem C6_fallback_failures_told_apart (w : World) (self : TravelAIAgent)
    (user_query : string) (s : state) :
  classify user_query = Unclassified user_query ->
  (model self = None ->
   handle_query w self user_query s = (Ok UNCONFIGURED_MESSAGE, s)) /\
  (forall m msg,
     model self = Some m ->
     genai_generate w (prompt_with_context user_query) = Raises msg ->
     exists s',
       handle_query w self user_query s = (Ok ("Error communicating with AI: " ++ msg), s')) /\
  (forall msg, "Error communicating with AI: " ++ msg <> UNCONFIGURED_MESSAGE) /\
  (exists out s', handle_query w self user_query s = (Ok out, s')).
Proof.
  intros H. rewrite (handle_query_fallback w self user_query s H).
  split; [|split; [|split]].
  - intros Em. now apply query_gemini_unconfigured.
  - intros m msg Em Eg.
    rewrite (query_gemini_configured w self m user_query s Em), Eg.
    eexists. reflexivity.
  - intros msg. discriminate.
  - destruct (model self) as [m|] eqn:Em.
    + rewrite (query_gemini_configured w self m user_query s Em).
      destruct (genai_generate w (prompt_with_context user_query)) as [msg|resp].
      * eexists. eexists. reflexivity.
      * destruct (first_part resp); eexists; eexists; reflexivity.
    + rewrite (query_gemini_unconfigured w self user_query s Em).
      eexists. eexists. reflexivity.
Qed.

Lemma C6_fallback_failures_told_apart_witness :
  handle_query down_world unconfigured_agent "What is Bern like?" initial_state =
    (Ok "AI functionality is not available due to missing or invalid API key.",
     initial_state) /\
  exists s',
    handle_query down_world configured_agent "What is Bern like?" initial_state =
    (Ok "Error communicating with AI: 429 quota exceeded", s').
Proof.
  split.
  - exact (proj1 (C6_fallback_failures_told_apart down_world unconfigured_agent
                    "What is Bern like?" initial_state eq_refl) eq_refl).
  - exact (proj1 (proj2 (C6_fallback_failures_told_apart down_world configured_agent
                           "What is Bern like?" initial_state eq_refl))
             (mkModel GEMINI_MODEL_NAME) "429 quota exceeded" eq_refl eq_refl).
Defined.

(** C10.  On the fallback path, when the call of the model returns
    without raising and the response has no candidates, no content or no
    parts, the answer is "Gemini AI did not return a valid response."; this
    answer differs from the one given without a model and from every
    answer given when the call raises. *)
Theorem C10_invalid_response_answer (w : World) (self : TravelAIAgent)
    (user_query : string) (s : state) (m : GenerativeModel) (resp : option response) :
  classify user_query = Unclassified user_query ->
  model self = Some m ->
  genai_generate w (prompt_with_context user_query) = Returns resp ->
  invalid_response resp ->
  (exists s',
     handle_query w self user_query s =
     (Ok "Gemini AI did not return a valid response.", s')) /\
  "Gemini AI did not return a valid response." <> UNCONFIGURED_MESSAGE /\
  (forall msg,
     "Gemini AI did not return a valid response." <> "Error communicating with AI: " ++ msg).
Proof.
  intros H Em Eg Hinv. apply invalid_response_first_part in Hinv.
  split; [|split].
  - rewrite (handle_query_fallback w self user_query s H).
    rewrite (query_gemini_configured w self m user_query s Em), Eg, Hinv.
    eexists. reflexivity.
  - discriminate.
  - intros msg. discriminate.
Qed.

Lemma C10_invalid_response_answer_witness :
  exists s',
    handle_query failing_world configured_agent "What is Bern like?" initial_state =
    (Ok "Gemini AI did not return a valid response.", s').
Proof.
  exact (proj1 (C10_invalid_response_answer failing_world configured_agent
                  "What is Bern like?" initial_state (mkModel GEMINI_MODEL_NAME)
                  (Some (mkResponse [])) eq_refl eq_refl eq_refl
                  (NoCandidates (mkResponse []) eq_refl))).
Defined.

(** ** Exceptions that leave [handle_query] *)

Lemma classify_fallback (user_query : string) :
  is_city_list_query (normalize user_query) = false ->
  startswith (normalize user_query) "hotels in " = false ->
  startswith (normalize user_query) "find hotels in " = false ->
  classify user_query = Unclassified user_query.
Proof.
  unfold classify, is_city_list_query, normalize. intros -> -> ->. reflexivity.
Qed.

(** [handle_query] does not always return: two failures on the side of
    the store are not a [psycopg2.Error], pass the handler of the lookup
    and leave [handle_query], after the connection has been closed.  With
    a connection that is accepted, a city list query raises [TypeError]
    when a city of the store is NULL (from the [join] of the line that is
    printed), and a hotel query raises [ValueError] when its location holds
    NUL. *)
Theorem uncaught_exceptions_leave_handle_query (w : World) (self : TravelAIAgent)
    (user_query : string) (s : state) (u : unit) :
  pg_connect w = Returns u ->
  (forall rows i,
     is_city_list_query (normalize user_query) = true ->
     pg_select_cities w = Returns rows ->
     first_none 0 rows = Some i ->
     exists s',
       handle_query w self user_query s =
       (Raise (TypeError ("sequence item " ++ str_nat i ++
                          ": expected str instance, NoneType found")), s') /\
       ~ In (next_conn s) (open_conns s')) /\
  (forall loc,
     classify user_query = HotelsByLocation loc ->
     has_nul loc = true ->
     exists s',
       handle_query w self user_query s = (Raise (ValueError NUL_MESSAGE), s') /\
       ~ In (next_conn s) (open_conns s')).
Proof.
  intros Hc.
  assert (Hclosed : forall sql params,
             ~ In (next_conn s) (open_conns (after_raise s sql params))).
  { intros sql params Hin. unfold after_raise in Hin. cbn [open_conns] in Hin.
    apply filter_In in Hin. destruct Hin as (_ & Hin).
    now rewrite Nat.eqb_refl in Hin. }
  split.
  - intros rows i Hq Hr Hi.
    rewrite (handle_query_city_list w self user_query s Hq).
    unfold bind. rewrite (get_cities_connected w s u Hc), Hr, Hi.
    eexists. split; [reflexivity | apply Hclosed].
  - intros loc H Hn. apply classify_hotels_inv in H.
    destruct H as (prefix & Hp & Hl & Hs & ->).
    rewrite (handle_query_hotels w self user_query prefix s Hp Hl Hs).
    unfold bind. rewrite (get_hotels_connected w _ s u Hc), Hn.
    eexists. split; [reflexivity | apply Hclosed].
Qed.

Lemma uncaught_exceptions_leave_handle_query_witness :
  exists s',
    handle_query roman_world unconfigured_agent "list cities" initial_state =
    (Raise (TypeError ("sequence item " ++ str_nat 1 ++
                       ": expected str instance, NoneType found")), s') /\
    ~ In (next_conn initial_state) (open_conns s').
Proof.
  exact (proj1 (uncaught_exceptions_leave_handle_query roman_world unconfigured_agent
                  "list cities" initial_state tt eq_refl)
           [Some "Bern"; None; Some "Rome"] 1 eq_refl eq_refl eq_refl).
Defined.

(** ** Connections *)

Lemma after_lookup_scoped (s : state) (sql : string) (params : list string) (note : event) :
  is_print note = true ->
  trace (after_lookup s sql params note) =
    (trace s ++ EvConnect (Some (next_conn s))
             :: lookup_events (next_conn s) sql params note)%list /\
  queries_on (next_conn s) (lookup_events (next_conn s) sql params note) = [(sql, params)] /\
  last (lookup_events (next_conn s) sql params note) (EvConnect None)
    = EvClose (next_conn s) /\
  ~ In (next_conn s) (open_conns (after_lookup s sql params note)).
Proof.
  intros Hn. split; [reflexivity|]. split; [|split].
  - destruct note; try discriminate; simpl; now rewrite Nat.eqb_refl.
  - reflexivity.
  - unfold after_lookup. cbn [open_conns]. intros Hin.
    apply filter_In in Hin. destruct Hin as (_ & Hin).
    now rewrite Nat.eqb_refl in Hin.
Qed.

Lemma after_raise_scoped (s : state) (sql : string) (params : list string) :
  exists evs,
    trace (after_raise s sql params) =
      (trace s ++ EvConnect (Some (next_conn s)) :: evs)%list /\
    queries_on (next_conn s) evs = [(sql, params)] /\
    last evs (EvConnect None) = EvClose (next_conn s) /\
    ~ In (next_conn s) (open_conns (after_raise s sql params)).
Proof.
  eexists. split; [reflexivity|]. split; [|split].
  - simpl. now rewrite Nat.eqb_refl.
  - reflexivity.
  - unfold after_raise. cbn [open_conns]. intros Hin.
    apply filter_In in Hin. destruct Hin as (_ & Hin).
    now rewrite Nat.eqb_refl in Hin.
Qed.

(** C8.  In every call of one of the two lookups in which the connection
    is opened, the events of the call after the opening hold exactly one
    statement executed on that connection, they end with the closing of
    the connection, and the connection is not open when the call is left.
    This holds on every way out: when the statement returns rows, when it
    raises [psycopg2.Error], which the lookup catches, and when an
    exception leaves the lookup, as [ValueError] does for a location with
    NUL and [TypeError] for a city that is NULL. *)
Theorem C8_connection_scoped_per_call (w : World) (location : string) (s : state)
    (u : unit) :
  pg_connect w = Returns u ->
  (exists r s' evs,
     _get_cities_from_db w s = (r, s') /\
     trace s' = (trace s ++ EvConnect (Some (next_conn s)) :: evs)%list /\
     queries_on (next_conn s) evs = [(SQL_CITIES, [])] /\
     last evs (EvConnect None) = EvClose (next_conn s) /\
     ~ In (next_conn s) (open_conns s')) /\
  (exists r s' evs,
     _get_hotels_by_location_from_db w location s = (r, s') /\
     trace s' = (trace s ++ EvConnect (Some (next_conn s)) :: evs)%list /\
     queries_on (next_conn s) evs = [(SQL_HOTELS, [location])] /\
     last evs (EvConnect None) = EvClose (next_conn s) /\
     ~ In (next_conn s) (open_conns s')) /\
  (has_nul location = true ->
   fst (_get_hotels_by_location_from_db w location s) = Raise (ValueError NUL_MESSAGE)) /\
  (forall rows i,
     pg_select_cities w = Returns rows -> first_none 0 rows = Some i ->
     exists e, fst (_get_cities_from_db w s) = Raise e).
Proof.
  intros Hc.
  assert (Hraise : forall A (r : result A) sql params,
             exists (r' : result A) s' evs,
               (r, after_raise s sql params) = (r', s') /\
               trace s' = (trace s ++ EvConnect (Some (next_conn s)) :: evs)%list /\
               queries_on (next_conn s) evs = [(sql, params)] /\
               last evs (EvConnect None) = EvClose (next_conn s) /\
               ~ In (next_conn s) (open_conns s')).
  { intros A r sql params.
    destruct (after_raise_scoped s sql params) as (evs & H).
    exists r, (after_raise s sql params), evs. split; [reflexivity | exact H]. }
  assert (Hlook : forall A (r : result A) sql params note,
             is_print note = true ->
             exists (r' : result A) s' evs,
               (r, after_lookup s sql params note) = (r', s') /\
               trace s' = (trace s ++ EvConnect (Some (next_conn s)) :: evs)%list /\
               queries_on (next_conn s) evs = [(sql, params)] /\
               last evs (EvConnect None) = EvClose (next_conn s) /\
               ~ In (next_conn s) (open_conns s')).
  { intros A r sql params note Hn.
    exists r, (after_lookup s sql params note), (lookup_events (next_conn s) sql params note).
    split; [reflexivity | now apply after_lookup_scoped]. }
  split; [|split; [|split]].
  - rewrite (get_cities_connected w s u Hc).
    destruct (pg_select_cities w) as [msg|rows];
      [now apply Hlook|].
    destruct (first_none 0 rows); [apply Hraise | now apply Hlook].
  - rewrite (get_hotels_connected w location s u Hc).
    destruct (has_nul location); [apply Hraise|].
    destruct (pg_select_hotels w location); now apply Hlook.
  - intros Hn. now rewrite (get_hotels_connected w location s u Hc), Hn.
  - intros rows i Hr Hi.
    rewrite (get_cities_connected w s u Hc), Hr, Hi. eexists. reflexivity.
Qed.

Lemma C8_connection_scoped_per_call_witness :
  (exists r s' evs,
     _get_hotels_by_location_from_db failing_world "zurich" initial_state = (r, s') /\
     trace s' = ([] ++ EvConnect (Some 0) :: evs)%list /\
     queries_on 0 evs = [(SQL_HOTELS, ["zurich"])] /\
     last evs (EvConnect None) = EvClose 0 /\
     ~ In 0 (open_conns s')) /\
  (exists r s' evs,
     _get_hotels_by_location_from_db swiss_world (String "a" (String NUL "b")) initial_state
       = (r, s') /\
     trace s' = ([] ++ EvConnect (Some 0) :: evs)%list /\
     queries_on 0 evs = [(SQL_HOTELS, [String "a" (String NUL "b")])] /\
     last evs (EvConnect None) = EvClose 0 /\
     ~ In 0 (open_conns s')) /\
  fst (_get_hotels_by_location_from_db swiss_world (String "a" (String NUL "b"))
         initial_state) = Raise (ValueError NUL_MESSAGE).
Proof.
  split; [|split].
  - exact (proj1 (proj2 (C8_connection_scoped_per_call failing_world "zurich"
                           initial_state tt eq_refl))).
  - exact (proj1 (proj2 (C8_connection_scoped_per_call swiss_world
                           (String "a" (String NUL "b")) initial_state tt eq_refl))).
  - exact (proj1 (proj2 (proj2 (C8_connection_scoped_per_call swiss_world
                                  (String "a" (String NUL "b")) initial_state tt eq_refl)))
             eq_refl).
Defined.

(** ** Normal forms *)

Section NormalForms.

Ltac ascii_cases c := destruct c as [[] [] [] [] [] [] [] []]; reflexivity.

Lemma lower_char_idem (c : ascii) : lower_char (lower_char c) = lower_char c.
Proof. ascii_cases c. Qed.

Lemma lower_upper_char (c : ascii) : lower_char (upper_char c) = lower_char c.
Proof. ascii_cases c. Qed.

Lemma isspace_lower_char (c : ascii) : isspace (lower_char c) = isspace c.
Proof. ascii_cases c. Qed.

Lemma lower_idem (s : string) : lower (lower s) = lower s.
Proof.
  induction s as [|c s IH]; [reflexivity|].
  simpl. now rewrite lower_char_idem, IH.
Qed.

Lemma lower_lstrip (s : string) : lower (lstrip s) = lstrip (lower s).
Proof.
  induction s as [|c s IH]; [reflexivity|].
  simpl. rewrite isspace_lower_char. destruct (isspace c); [exact IH | reflexivity].
Qed.

Lemma lower_rstrip (s : string) : lower (rstrip s) = rstrip (lower s).
Proof.
  induction s as [|c s IH]; [reflexivity|].
  simpl. rewrite <- IH, isspace_lower_char.
  destruct (rstrip s) as [|b r]; [destruct (isspace c)|]; reflexivity.
Qed.

Lemma lower_strip (s : string) : lower (strip s) = strip (lower s).
Proof. unfold strip. now rewrite lower_lstrip, lower_rstrip. Qed.

Lemma lstrip_idem (s : string) : lstrip (lstrip s) = lstrip s.
Proof.
  induction s as [|c s IH]; [reflexivity|].
  simpl. destruct (isspace c) eqn:E; [exact IH|]. simpl. now rewrite E.
Qed.

Lemma strip_idem (s : string) : strip (strip s) = strip s.
Proof.
  destruct (strip_last s) as [E|(c & Hc & Hs)].
  - rewrite E. reflexivity.
  - unfold strip at 1. rewrite (rstrip_fixed _ _ Hc Hs).
    unfold strip. apply lstrip_idem.
Qed.

Lemma normalize_idem (user_query : string) :
  normalize (normalize user_query) = normalize user_query.
Proof.
  unfold normalize. now rewrite lower_strip, lower_idem, strip_idem.
Qed.

Lemma normalize_is_normal (user_query : string) : is_normal (normalize user_query).
Proof.
  split.
  - unfold normalize. now rewrite lower_strip, lower_idem.
  - apply strip_idem.
Qed.

(** Removing occurrences brings in no upper-case letter. *)
Lemma lower_replace_from (old : string) (k : nat) (s : string) :
  lower s = s -> lower (replace_from old "" k s) = replace_from old "" k s.
Proof.
  revert k. induction s as [|c s IH]; intros k H; [reflexivity|].
  simpl in H. injection H as Hc Hs.
  destruct k as [|k]; [|exact (IH k Hs)].
  change (replace_from old "" 0 (String c s))
    with (if String.prefix old (String c s)
          then "" ++ replace_from old "" (String.length old - 1) s
          else String c (replace_from old "" 0 s)).
  destruct (String.prefix old (String c s)).
  - exact (IH _ Hs).
  - simpl. now rewrite Hc, (IH 0 Hs).
Qed.

Lemma lower_title_from (b : bool) (s : string) : lower (title_from b s) = lower s.
Proof.
  revert b. induction s as [|c s IH]; intros b; [reflexivity|].
  simpl. rewrite IH.
  destruct b; [now rewrite lower_char_idem | now rewrite lower_upper_char].
Qed.

End NormalForms.

(** ** More on classification *)

(** Two queries with the same normal form that are not left to the
    fallback are answered alike: same answer, same effects. *)
Theorem same_normal_form_same_result (w : World) (self : TravelAIAgent)
    (query1 query2 : string) (s : state) :
  normalize query1 = normalize query2 ->
  classify query1 <> Unclassified query1 ->
  handle_query w self query1 s = handle_query w self query2 s.
Proof.
  intros Hn Hc.
  destruct (is_city_list_query (normalize query1)) eqn:El.
  - rewrite (handle_query_city_list w self query1 s El).
    rewrite Hn in El. now rewrite (handle_query_city_list w self query2 s El).
  - assert (Hhotels : forall prefix,
               prefix = "hotels in " \/ prefix = "find hotels in " ->
               startswith (normalize query1) prefix = true ->
               handle_query w self query1 s = handle_query w self query2 s).
    { intros prefix Hp Hs.
      rewrite (handle_query_hotels w self query1 prefix s Hp El Hs).
      rewrite Hn in El, Hs.
      rewrite (handle_query_hotels w self query2 prefix s Hp El Hs).
      now rewrite Hn. }
    destruct (startswith (normalize query1) "hotels in ") eqn:E1;
      [now apply (Hhotels "hotels in "); auto|].
    destruct (startswith (normalize query1) "find hotels in ") eqn:E2;
      [now apply (Hhotels "find hotels in "); auto|].
    exfalso. apply Hc. now apply classify_fallback.
Qed.

Lemma same_normal_form_same_result_witness :
  handle_query swiss_world unconfigured_agent "  HOTELS in Zurich" initial_state =
  handle_query swiss_world unconfigured_agent "hotels in ZURICH  " initial_state.
Proof.
  apply same_normal_form_same_result.
  - reflexivity.
  - discriminate.
Defined.

(** The normalised text of a query is in normal form: it holds no
    upper-case letter, no white space at its ends, and normalising it again
    changes nothing. *)
Theorem normalize_normal_form (user_query : string) :
  lower (normalize user_query) = normalize user_query /\
  strip (normalize user_query) = normalize user_query /\
  normalize (normalize user_query) = normalize user_query.
Proof.
  destruct (normalize_is_normal user_query) as (Hl & Hs).
  repeat split; auto using normalize_idem.
Qed.

(** No text passes two of the three tests of [handle_query]: the order
    of its branches plays no part in the classification. *)
Theorem tests_exclude_each_other (normalized : string) :
  is_city_list_query normalized && startswith normalized "hotels in " = false /\
  is_city_list_query normalized && startswith normalized "find hotels in " = false /\
  startswith normalized "hotels in " && startswith normalized "find hotels in " = false.
Proof.
  repeat split.
  - destruct (is_city_list_query normalized) eqn:E; [|reflexivity].
    apply orb_true_iff in E. destruct E as [E|E];
      apply String.eqb_eq in E; subst; reflexivity.
  - destruct (is_city_list_query normalized) eqn:E; [|reflexivity].
    apply orb_true_iff in E. destruct E as [E|E];
      apply String.eqb_eq in E; subst; reflexivity.
  - destruct (startswith normalized "hotels in ") eqn:E1; [|reflexivity].
    destruct (startswith normalized "find hotels in ") eqn:E2; [|reflexivity].
    apply prefix_split in E1. apply prefix_split in E2.
    rewrite E1 in E2. discriminate.
Qed.

(** A hotel query that names no location is not a hotel query: when
    the normalised text is empty, "hotels in" or "find hotels in", the
    query is left to the fallback, with its text as it was given. *)
Theorem query_without_location_falls_back (w : World) (self : TravelAIAgent)
    (user_query : string) (s : state) :
  normalize user_query = "" \/
  normalize user_query = "hotels in" \/
  normalize user_query = "find hotels in" ->
  classify user_query = Unclassified user_query /\
  handle_query w self user_query s = _query_gemini w self user_query s.
Proof.
  intros H.
  assert (Hc : classify user_query = Unclassified user_query).
  { apply classify_fallback; destruct H as [-> | [-> | ->]]; reflexivity. }
  split; [exact Hc | now apply handle_query_fallback].
Qed.

Lemma query_without_location_falls_back_witness :
  classify "  Hotels In   " = Unclassified "  Hotels In   " /\
  handle_query swiss_world unconfigured_agent "  Hotels In   " initial_state =
  _query_gemini swiss_world unconfigured_agent "  Hotels In   " initial_state.
Proof.
  exact (query_without_location_falls_back swiss_world unconfigured_agent
           "  Hotels In   " initial_state (or_intror (or_introl eq_refl))).
Defined.

(** The location of a hotel query holds no upper-case ASCII letter and
    no white space at its ends; and when it is an ASCII text, the name
    shown in the answer, [title] of the location, is the location up to
    the case of its letters. *)
Theorem location_is_normal (user_query loc : string) :
  classify user_query = HotelsByLocation loc ->
  lower loc = loc /\ strip loc = loc /\
  (isascii loc = true -> lower (title loc) = loc).
Proof.
  intros H. apply classify_hotels_inv in H.
  destruct H as (prefix & Hp & _ & _ & ->).
  assert (Hl : lower (strip (replace (normalize user_query) prefix ""))
               = strip (replace (normalize user_query) prefix "")).
  { rewrite lower_strip. f_equal.
    destruct (normalize_is_normal user_query) as (Hn & _).
    destruct Hp as [-> | ->]; unfold replace; now apply lower_replace_from. }
  repeat split.
  - exact Hl.
  - apply strip_idem.
  - intros _. unfold title. now rewrite lower_title_from.
Qed.

Lemma location_is_normal_witness :
  lower "new york" = "new york" /\ strip "new york" = "new york" /\
  lower (title "new york") = "new york".
Proof.
  destruct (location_is_normal "  Find hotels in  New YORK " "new york" eq_refl)
    as (Hl & Hs & Ht).
  exact (conj Hl (conj Hs (Ht eq_refl))).
Defined.

(** For a city list query, a failure of the store (the connection is
    refused, or the statement raises) and a store without cities give the
    same answer; the call returns, it does not raise. *)
Theorem no_cities_answer (w : World) (self : TravelAIAgent) (user_query : string)
    (s : state) :
  is_city_list_query (normalize user_query) = true ->
  (exists msg, pg_connect w = Raises msg) \/
  (exists msg, pg_select_cities w = Raises msg) \/
  pg_select_cities w = Returns [] ->
  exists s',
    handle_query w self user_query s =
    (Ok "Could not retrieve city list from database. Please ensure the database is running and accessible.",
     s').
Proof.
  intros Hq Hw. rewrite (handle_query_city_list w self user_query s Hq).
  unfold bind, ret.
  destruct (pg_connect w) as [msg|u] eqn:Hc.
  - rewrite (get_cities_refused w s msg Hc). eexists. reflexivity.
  - rewrite (get_cities_connected w s u Hc).
    destruct Hw as [(msg & Hm) | [(msg & ->) | ->]];
      [discriminate | |]; eexists; reflexivity.
Qed.

Lemma no_cities_answer_witness :
  (exists s', handle_query down_world unconfigured_agent "list cities" initial_state =
     (Ok "Could not retrieve city list from database. Please ensure the database is running and accessible.",
      s')) /\
  (exists s', handle_query failing_world unconfigured_agent " Show Cities" initial_state =
     (Ok "Could not retrieve city list from database. Please ensure the database is running and accessible.",
      s')).
Proof.
  split.
  - exact (no_cities_answer down_world unconfigured_agent "list cities" initial_state
             eq_refl (or_introl (ex_intro _ "connection refused" eq_refl))).
  - exact (no_cities_answer failing_world unconfigured_agent " Show Cities" initial_state
             eq_refl (or_intror (or_introl
                        (ex_intro _ "relation hotels does not exist" eq_refl)))).
Defined.

(** ** The effects of a call *)

Section Effects.

Lemma lookup_outcome_cities (w : World) (s : state) :
  lookup_outcome s (snd (_get_cities_from_db w s)) SQL_CITIES [].
Proof.
  destruct (pg_connect w) as [msg|u] eqn:E.
  - rewrite (get_cities_refused w s msg E). left. eexists. reflexivity.
  - rewrite (get_cities_connected w s u E). right.
    destruct (pg_select_cities w) as [msg|rows];
      [|destruct (first_none 0 rows)];
      [left; eexists; (split; [|reflexivity]); reflexivity
      |now right
      |left; eexists; (split; [|reflexivity]); reflexivity].
Qed.

Lemma lookup_outcome_hotels (w : World) (location : string) (s : state) :
  lookup_outcome s (snd (_get_hotels_by_location_from_db w location s))
    SQL_HOTELS [location].
Proof.
  destruct (pg_connect w) as [msg|u] eqn:E.
  - rewrite (get_hotels_refused w location s msg E). left. eexists. reflexivity.
  - rewrite (get_hotels_connected w location s u E). right.
    destruct (has_nul location); [now right|].
    destruct (pg_select_hotels w location);
      left; eexists; (split; [|reflexivity]); reflexivity.
Qed.

Lemma fallback_outcome_query_gemini (w : World) (self : TravelAIAgent)
    (prompt : string) (s : state) :
  fallback_outcome s (snd (_query_gemini w self prompt s)) prompt.
Proof.
  destruct (model self) as [m|] eqn:Em.
  - rewrite (query_gemini_configured w self m prompt s Em). right.
    destruct (genai_generate w (prompt_with_context prompt)) as [msg|r];
      [|destruct (first_part r)]; eexists; (split; [|reflexivity]);
      repeat constructor.
  - rewrite (query_gemini_unconfigured w self prompt s Em). now left.
Qed.

(** A continuation that only computes leaves the state as it is. *)
Lemma snd_bind_ret {A B : Type} (m : M A) (f : A -> B) (s : state) :
  snd ((x <- m ;; ret (f x)) s) = snd (m s).
Proof. unfold bind, ret. destruct (m s) as [[a|e] s']; reflexivity. Qed.

(** What a call of [handle_query] does to the state, by intent. *)
Lemma handle_query_outcome (w : World) (self : TravelAIAgent) (user_query : string)
    (s : state) :
  let s' := snd (handle_query w self user_query s) in
  match classify user_query with
  | ListCities => lookup_outcome s s' SQL_CITIES []
  | HotelsByLocation loc => lookup_outcome s s' SQL_HOTELS [loc]
  | Unclassified _ => fallback_outcome s s' user_query
  end.
Proof.
  intros s'. subst s'.
  pose proof (classify_classified user_query) as C.
  destruct C as [El | prefix Hp El Hs | El E1 E2].
  - rewrite (handle_query_city_list w self user_query s El), snd_bind_ret.
    apply lookup_outcome_cities.
  - rewrite (handle_query_hotels w self user_query prefix s Hp El Hs), snd_bind_ret.
    apply lookup_outcome_hotels.
  - rewrite (handle_query_fallback w self user_query s
               (classify_fallback user_query El E1 E2)).
    apply fallback_outcome_query_gemini.
Qed.

Lemma statements_app (l l' : list event) :
  statements (l ++ l') = (statements l ++ statements l')%list.
Proof.
  induction l as [|e l IH]; [reflexivity|].
  destruct e; simpl; now rewrite IH.
Qed.

Lemma connect_attempts_app (l l' : list event) :
  connect_attempts (l ++ l') = connect_attempts l + connect_attempts l'.
Proof.
  induction l as [|e l IH]; [reflexivity|].
  destruct e; simpl; now rewrite IH.
Qed.

Lemma prints_silent (notes : list event) :
  Forall (fun e => is_print e = true) notes ->
  statements notes = [] /\ connect_attempts notes = 0 /\ generate_calls notes = [].
Proof.
  induction 1 as [|e notes He _ IH]; [repeat split|].
  destruct e; try discriminate; exact IH.
Qed.

Lemma filter_fresh (c : connection) (l : list connection) :
  (forall c', In c' l -> c' < c) ->
  filter (fun c' => negb (Nat.eqb c' c)) l = l.
Proof.
  induction l as [|a l IH]; intros H; [reflexivity|].
  simpl. assert (Ha : a < c) by (apply H; now left).
  replace (Nat.eqb a c) with false by (symmetry; apply Nat.eqb_neq; lia).
  simpl. rewrite IH; [reflexivity|]. intros c' Hc'. apply H. now right.
Qed.

End Effects.

(** A query answered from the catalog never reaches the model: a call
    of [handle_query] for a query that is not left to the fallback makes no
    call of [generate_content]. *)
Theorem catalog_query_never_calls_model (w : World) (self : TravelAIAgent)
    (user_query : string) (s : state) :
  classify user_query <> Unclassified user_query ->
  generate_calls (trace (snd (handle_query w self user_query s))) =
  generate_calls (trace s).
Proof.
  intros Hc. pose proof (handle_query_outcome w self user_query s) as H.
  cbv zeta in H.
  assert (Hl : forall sql params,
             lookup_outcome s (snd (handle_query w self user_query s)) sql params ->
             generate_calls (trace (snd (handle_query w self user_query s))) =
             generate_calls (trace s)).
  { intros sql params [(line & ->) | [(note & Hn & ->) | ->]].
    - unfold logged. cbn [trace]. rewrite generate_calls_app. apply app_nil_r.
    - unfold after_lookup. cbn [trace]. rewrite generate_calls_app.
      destruct note; try discriminate; apply app_nil_r.
    - unfold after_raise. cbn [trace]. rewrite generate_calls_app. apply app_nil_r. }
  destruct (classify user_query) as [|loc|t] eqn:E; eauto.
  apply classify_unclassified_inv in E. destruct E as (-> & _). congruence.
Qed.

Lemma catalog_query_never_calls_model_witness :
  generate_calls
    (trace (snd (handle_query swiss_world configured_agent "hotels in Zurich"
                   initial_state))) =
  generate_calls (trace initial_state).
Proof.
  apply catalog_query_never_calls_model. discriminate.
Defined.

(** A query left to the fallback never reaches the store: the call
    makes no connection attempt, executes no statement and leaves the
    connections as they were. *)
Theorem fallback_never_touches_store (w : World) (self : TravelAIAgent)
    (user_query : string) (s : state) :
  classify user_query = Unclassified user_query ->
  let s' := snd (handle_query w self user_query s) in
  connect_attempts (trace s') = connect_attempts (trace s) /\
  statements (trace s') = statements (trace s) /\
  next_conn s' = next_conn s /\
  open_conns s' = open_conns s.
Proof.
  intros Hc s'. pose proof (handle_query_outcome w self user_query s) as H.
  cbv zeta in H. rewrite Hc in H. fold s' in H.
  destruct H as [-> | (notes & Hn & ->)]; [repeat split|].
  apply prints_silent in Hn. destruct Hn as (Hs & Ha & _).
  unfold logged. cbn [trace next_conn open_conns].
  rewrite connect_attempts_app, statements_app.
  cbn [connect_attempts statements querying_note]. rewrite Hs, Ha.
  repeat split; [lia | apply app_nil_r].
Qed.

Lemma fallback_never_touches_store_witness :
  let s' := snd (handle_query swiss_world configured_agent "What is Bern like?"
                   initial_state) in
  connect_attempts (trace s') = connect_attempts (trace initial_state) /\
  statements (trace s') = statements (trace initial_state) /\
  next_conn s' = next_conn initial_state /\
  open_conns s' = open_conns initial_state.
Proof.
  exact (fallback_never_touches_store swiss_world configured_agent
           "What is Bern like?" initial_state eq_refl).
Defined.

(** The text of a query never becomes part of a statement: a call of
    [handle_query] executes at most one statement, and it is one of the two
    fixed ones, the hotel statement with the location as its one parameter. *)
Theorem only_fixed_statements (w : World) (self : TravelAIAgent)
    (user_query : string) (s : state) :
  exists new,
    statements (trace (snd (handle_query w self user_query s))) =
      (statements (trace s) ++ new)%list /\
    (new = [] \/
     (classify user_query = ListCities /\ new = [(SQL_CITIES, [])]) \/
     (exists loc, classify user_query = HotelsByLocation loc /\
                  new = [(SQL_HOTELS, [loc])])).
Proof.
  pose proof (handle_query_outcome w self user_query s) as H. cbv zeta in H.
  assert (Hl : forall sql params,
             lookup_outcome s (snd (handle_query w self user_query s)) sql params ->
             statements (trace (snd (handle_query w self user_query s))) =
               (statements (trace s) ++ [])%list \/
             statements (trace (snd (handle_query w self user_query s))) =
               (statements (trace s) ++ [(sql, params)])%list).
  { intros sql params [(line & ->) | [(note & Hn & ->) | ->]].
    - left. unfold logged. cbn [trace]. now rewrite statements_app.
    - right. unfold after_lookup. cbn [trace]. rewrite statements_app.
      destruct note; try discriminate; reflexivity.
    - right. unfold after_raise. cbn [trace]. now rewrite statements_app. }
  destruct (classify user_query) as [|loc|t] eqn:E.
  - destruct (Hl _ _ H) as [H'|H']; eexists; (split; [exact H'|]); auto.
  - destruct (Hl _ _ H) as [H'|H']; eexists; (split; [exact H'|]); eauto.
  - exists []. split; [|now left]. rewrite app_nil_r.
    destruct H as [-> | (notes & Hn & ->)]; [reflexivity|].
    apply prints_silent in Hn. destruct Hn as (Hs & _).
    unfold logged. cbn [trace]. rewrite statements_app.
    cbn [statements querying_note]. rewrite Hs. apply app_nil_r.
Qed.

(** A call of [handle_query] leaks no connection: started with every
    open connection being one that was handed out, it opens at most one
    connection and leaves the open connections exactly as they were. *)
Theorem no_connection_leak (w : World) (self : TravelAIAgent)
    (user_query : string) (s : state) :
  handles_fresh s ->
  let s' := snd (handle_query w self user_query s) in
  open_conns s' = open_conns s /\
  handles_fresh s' /\
  next_conn s <= next_conn s' <= S (next_conn s).
Proof.
  intros Hf s'. pose proof (handle_query_outcome w self user_query s) as H.
  cbv zeta in H. fold s' in H.
  assert (Hl : forall sql params,
             lookup_outcome s s' sql params ->
             open_conns s' = open_conns s /\ next_conn s <= next_conn s' <= S (next_conn s)).
  { intros sql params [(line & ->) | [(note & Hn & ->) | ->]].
    - unfold logged. cbn [next_conn open_conns]. split; [reflexivity | lia].
    - unfold after_lookup. cbn [next_conn open_conns].
      split; [now apply filter_fresh | lia].
    - unfold after_raise. cbn [next_conn open_conns].
      split; [now apply filter_fresh | lia]. }
  assert (Hgoal : open_conns s' = open_conns s /\
                  next_conn s <= next_conn s' <= S (next_conn s)).
  { destruct (classify user_query) as [|loc|t]; eauto.
    destruct H as [-> | (notes & _ & ->)]; [split; [reflexivity | lia]|].
    unfold logged. cbn [next_conn open_conns]. split; [reflexivity | lia]. }
  destruct Hgoal as (Ho & Hn). repeat split; try tauto.
  intros c Hc. rewrite Ho in Hc. apply Hf in Hc. lia.
Qed.

Lemma no_connection_leak_witness :
  let s' := snd (handle_query failing_world unconfigured_agent "hotels in Zurich"
                   initial_state) in
  open_conns s' = open_conns initial_state /\
  handles_fresh s' /\
  next_conn initial_state <= next_conn s' <= S (next_conn initial_state).
Proof.
  apply no_connection_leak. intros c Hc. destruct Hc.
Defined.

(** ** The endpoint *)

Section Endpoint.

Variables (w : World) (p : process) (agent : TravelAIAgent).
Hypothesis Hagent : agent_instance p = Some agent.

Lemma endpoint_with_agent (get_json : outcome json) :
  query_ai_endpoint w get_json p =
  (data <~ match get_json with
           | Raises msg => raiseP (OtherException msg)
           | Returns data => retP data
           end ;;
   user_query <~ method_get data "query" ;;
   if negb (json_truthy user_query) then retP NO_QUERY
   else
     response_text <~ call_handle_query w agent user_query ;;
     retP (jsonify [("response", JStr response_text)] 200)) p.
Proof.
  unfold query_ai_endpoint, bindP at 1, read_agent_instance.
  now rewrite Hagent.
Qed.

Lemma endpoint_with_query (items : list (string * json)) :
  query_ai_endpoint w (Returns (JDict items)) p =
  (if negb (json_truthy (dict_get items "query")) then retP NO_QUERY
   else
     response_text <~ call_handle_query w agent (dict_get items "query") ;;
     retP (jsonify [("response", JStr response_text)] 200)) p.
Proof. rewrite endpoint_with_agent. reflexivity. Qed.

End Endpoint.

(** A request without a usable query is refused with status 400 before
    anything else happens: when the body is a dictionary in which "query"
    is absent or holds a false value (null, the empty string, zero, false,
    an empty list or dictionary), the answer is the "No query provided"
    error and the process is left as it was. *)
Theorem endpoint_refuses_missing_query (w : World) (p : process) (agent : TravelAIAgent)
    (items : list (string * json)) :
  agent_instance p = Some agent ->
  json_truthy (dict_get items "query") = false ->
  query_ai_endpoint w (Returns (JDict items)) p = (Ok NO_QUERY, p).
Proof.
  intros Ha Hq. rewrite (endpoint_with_query w p agent Ha), Hq. reflexivity.
Qed.

Lemma endpoint_refuses_missing_query_witness :
  let p := mkProcess (Some configured_agent) initial_state in
  query_ai_endpoint swiss_world (Returns (JDict [("question", JStr "list cities")])) p
    = (Ok NO_QUERY, p) /\
  query_ai_endpoint swiss_world (Returns (JDict [("query", JStr "")])) p = (Ok NO_QUERY, p) /\
  query_ai_endpoint swiss_world (Returns (JDict [("query", JInt Z0)])) p = (Ok NO_QUERY, p).
Proof.
  intros p. split; [|split].
  - exact (endpoint_refuses_missing_query swiss_world p configured_agent
             [("question", JStr "list cities")] eq_refl eq_refl).
  - exact (endpoint_refuses_missing_query swiss_world p configured_agent
             [("query", JStr "")] eq_refl eq_refl).
  - exact (endpoint_refuses_missing_query swiss_world p configured_agent
             [("query", JInt Z0)] eq_refl eq_refl).
Defined.

(** A request with a query that is a string and not empty is handed to
    [handle_query] as it is.  When [handle_query] returns an answer, the
    endpoint answers with status 200 and the body [{"response": answer}];
    when [handle_query] raises, the exception leaves the endpoint, which
    has no handler.  Either way the state is the one [handle_query] left
    and the agent stays the one it was. *)
Theorem endpoint_answers_string_query (w : World) (p : process) (agent : TravelAIAgent)
    (items : list (string * json)) (user_query : string) :
  agent_instance p = Some agent ->
  dict_get items "query" = JStr user_query ->
  user_query <> "" ->
  query_ai_endpoint w (Returns (JDict items)) p =
  (match fst (handle_query w agent user_query (outside p)) with
   | Ok answer => Ok (JDict [("response", JStr answer)], 200)
   | Raise e => Raise e
   end,
   mkProcess (Some agent) (snd (handle_query w agent user_query (outside p)))).
Proof.
  intros Ha Hq Hne.
  rewrite (endpoint_with_query w p agent Ha), Hq.
  cbn [json_truthy]. apply String.eqb_neq in Hne. rewrite Hne. cbn [negb].
  unfold bindP, call_handle_query, lift, retP, jsonify.
  destruct (handle_query w agent user_query (outside p)) as [[answer|e] s'];
    cbn [fst snd]; now rewrite Ha.
Qed.

Lemma endpoint_answers_string_query_witness :
  query_ai_endpoint swiss_world (Returns (JDict [("query", JStr "List Cities")]))
    (mkProcess (Some configured_agent) initial_state) =
  (Ok (JDict [("response", JStr "Available cities: Bern, Geneva, Zurich.")], 200),
   mkProcess (Some configured_agent)
     (snd (handle_query swiss_world configured_agent "List Cities" initial_state))) /\
  query_ai_endpoint swiss_world
    (Returns (JDict [("query", JStr ("hotels in a" ++ String NUL "b"))]))
    (mkProcess (Some configured_agent) initial_state) =
  (Raise (ValueError NUL_MESSAGE),
   mkProcess (Some configured_agent)
     (snd (handle_query swiss_world configured_agent ("hotels in a" ++ String NUL "b")
             initial_state))).
Proof.
  split.
  - apply (endpoint_answers_string_query swiss_world
             (mkProcess (Some configured_agent) initial_state) configured_agent
             [("query", JStr "List Cities")] "List Cities").
    + reflexivity.
    + reflexivity.
    + discriminate.
  - apply (endpoint_answers_string_query swiss_world
             (mkProcess (Some configured_agent) initial_state) configured_agent
             [("query", JStr ("hotels in a" ++ String NUL "b"))]
             ("hotels in a" ++ String NUL "b")).
    + reflexivity.
    + reflexivity.
    + discriminate.
Defined.

(** A query that is true but not a string (a number other than zero,
    [true], a list or dictionary that is not empty) is not refused with
    status 400: it reaches [handle_query], whose first step raises
    [AttributeError], and the error leaves the endpoint; the same happens
    with [get] when the body is not a dictionary.  Nothing else happens. *)
Theorem endpoint_raises_on_wrong_type (w : World) (p : process) (agent : TravelAIAgent) :
  agent_instance p = Some agent ->
  (forall items,
     json_truthy (dict_get items "query") = true ->
     (forall q, dict_get items "query" <> JStr q) ->
     query_ai_endpoint w (Returns (JDict items)) p =
     (Raise (AttributeError (dict_get items "query") "lower"), p)) /\
  (forall data,
     (forall items, data <> JDict items) ->
     query_ai_endpoint w (Returns data) p = (Raise (AttributeError data "get"), p)).
Proof.
  intros Ha. split.
  - intros items Ht Hs. rewrite (endpoint_with_query w p agent Ha), Ht. cbn [negb].
    unfold bindP, call_handle_query.
    destruct (dict_get items "query") as [| | | |q| |]; try reflexivity.
    now destruct (Hs q).
  - intros data Hd. rewrite (endpoint_with_agent w p agent Ha).
    destruct data as [| | | | | |items]; try reflexivity.
    now destruct (Hd items).
Qed.

Lemma endpoint_raises_on_wrong_type_witness :
  let p := mkProcess (Some configured_agent) initial_state in
  query_ai_endpoint swiss_world (Returns (JDict [("query", JInt (Zpos 5))])) p =
    (Raise (OtherException "'int' object has no attribute 'lower'"), p) /\
  query_ai_endpoint swiss_world (Returns (JList [JStr "list cities"])) p =
    (Raise (OtherException "'list' object has no attribute 'get'"), p).
Proof.
  split.
  - apply (proj1 (endpoint_raises_on_wrong_type swiss_world
                    (mkProcess (Some configured_agent) initial_state)
                    configured_agent eq_refl) [("query", JInt (Zpos 5))]).
    + reflexivity.
    + discriminate.
  - apply (proj2 (endpoint_raises_on_wrong_type swiss_world
                    (mkProcess (Some configured_agent) initial_state)
                    configured_agent eq_refl) (JList [JStr "list cities"])).
    discriminate.
Defined.

(** ** The start-up *)

Section StartUp.

Variable w : World.

Lemma logged_nil (s : state) : logged s [] = s.
Proof. destruct s as [n o t]. unfold logged. simpl. now rewrite app_nil_r. Qed.

Lemma logged_logged (s : state) (l l' : list event) :
  logged (logged s l) l' = logged s (l ++ l').
Proof. unfold logged. simpl. now rewrite app_assoc. Qed.


(** [TravelAIAgent.__init__] returns an agent and only prints. *)
Lemma agent_init_run (api_key : string) (s : state) :
  exists agent notes,
    TravelAIAgent_init w api_key s = (Ok agent, logged s notes) /\
    Forall (fun e => is_print e = true) notes /\
    (model agent = None <-> exists msg, genai_setup w api_key = Raises msg) /\
    (In KEY_WARNING (stderr_lines notes) <-> api_key = "").
Proof.
  unfold TravelAIAgent_init.
  cbv [bind ret raise try_except emit eprint is_exception str_exn].
  fold KEY_WARNING.
  destruct (api_key =? "")%string eqn:Ek;
    [apply String.eqb_eq in Ek | apply String.eqb_neq in Ek];
    destruct (genai_setup w api_key) as [msg|u]; cbv beta iota.
  - eexists.
    exists [EvStderr KEY_WARNING;
            EvStderr ("Error configuring Gemini API: " ++ msg ++
               ". Gemini functionality is not intended for general queries as per user request.")].
    split; [unfold logged; cbn [next_conn open_conns trace];
            rewrite <- app_assoc; reflexivity|].
    split; [repeat constructor|]. split.
    + split; [intros _; now exists msg | reflexivity].
    + split; [intros _; exact Ek | intros _; now left].
  - eexists. exists [EvStderr KEY_WARNING].
    split; [reflexivity|]. split; [repeat constructor|]. split.
    + split; [discriminate | intros (m & Hm); discriminate].
    + split; [intros _; exact Ek | intros _; now left].
  - eexists.
    exists [EvStderr ("Error configuring Gemini API: " ++ msg ++
               ". Gemini functionality is not intended for general queries as per user request.")].
    split; [reflexivity|]. split; [repeat constructor|]. split.
    + split; [intros _; now exists msg | reflexivity].
    + split; [|congruence]. cbn. intros [H|[]]. discriminate.
  - eexists. exists [].
    split; [now rewrite logged_nil|]. split; [constructor|]. split.
    + split; [discriminate | intros (m & Hm); discriminate].
    + split; [intros [] | congruence].
Qed.

Lemma get_db_connection_run (s : state) :
  get_db_connection w s =
  match pg_connect w with
  | Raises msg =>
      (Ok None,
       logged s [EvConnect None;
                 EvStderr ("Error connecting to PostgreSQL database: " ++ msg)])
  | Returns _ =>
      (Ok (Some (next_conn s)),
       mkState (S (next_conn s)) (next_conn s :: open_conns s)
               (trace s ++ [EvConnect (Some (next_conn s))]))
  end.
Proof.
  unfold get_db_connection.
  cbv [bind ret try_except psycopg2_connect emit eprint is_psycopg2_error str_exn logged].
  destruct (pg_connect w) as [msg|u]; cbn [next_conn open_conns trace];
    [rewrite <- app_assoc|]; reflexivity.
Qed.

(** The state the start-up leaves: the lines of [__init__], then the
    connection test, with the connection closed again when it was opened. *)
Lemma init_agent_async_run (environ : option string) (p : process) :
  exists agent notes,
    Forall (fun e => is_print e = true) notes /\
    (model agent = None <->
     exists msg, genai_setup w (GEMINI_API_KEY environ) = Raises msg) /\
    (In KEY_WARNING (stderr_lines notes) <-> GEMINI_API_KEY environ = "") /\
    init_agent_async w environ p =
    (Ok tt,
     mkProcess (Some agent)
       match pg_connect w with
       | Raises msg =>
           logged (outside p)
             (notes ++
              [EvConnect None;
               EvStderr ("Error connecting to PostgreSQL database: " ++ msg);
               EvStdout "Failed to connect to PostgreSQL database. Database queries will not work. Please check DB_CONFIG."])
       | Returns _ =>
           let c := next_conn (outside p) in
           mkState (S c)
                   (filter (fun c' => negb (Nat.eqb c' c)) (open_conns (outside p)))
                   (trace (outside p) ++ notes ++
                    [EvConnect (Some c);
                     EvStdout "Successfully connected to PostgreSQL database.";
                     EvClose c])
       end).
Proof.
  destruct (agent_init_run (GEMINI_API_KEY environ) (outside p))
    as (agent & notes & E & Hn & Hm & Hk).
  exists agent, notes. repeat (split; [assumption|]).
  unfold init_agent_async, bindP, lift, write_agent_instance.
  rewrite E. cbn [outside agent_instance].
  rewrite get_db_connection_run.
  destruct (pg_connect w) as [msg|u].
  - cbv [print emit logged]. cbn [agent_instance outside next_conn open_conns trace].
    rewrite <- !app_assoc. reflexivity.
  - cbv [print emit conn_close bind logged].
    cbn [agent_instance outside next_conn open_conns trace].
    rewrite filter_closed, <- !app_assoc. reflexivity.
Qed.

End StartUp.

(** The start-up always succeeds in setting [agent_instance], whatever
    the store and the client do: it does not raise; the agent is without a
    model exactly when setting up the client raised; it tries the store
    once, executes no statement and leaves no connection open. *)
Theorem start_up_sets_agent (w : World) (environ : option string) (p : process) :
  handles_fresh (outside p) ->
  exists agent p',
    init_agent_async w environ p = (Ok tt, p') /\
    agent_instance p' = Some agent /\
    (model agent = None <->
     exists msg, genai_setup w (GEMINI_API_KEY environ) = Raises msg) /\
    connect_attempts (trace (outside p')) = S (connect_attempts (trace (outside p))) /\
    statements (trace (outside p')) = statements (trace (outside p)) /\
    open_conns (outside p') = open_conns (outside p).
Proof.
  intros Hf.
  destruct (init_agent_async_run w environ p) as (agent & notes & Hn & Hm & _ & E).
  exists agent. eexists. split; [exact E|].
  apply prints_silent in Hn. destruct Hn as (Hs & Ha & _).
  cbn [agent_instance outside]. split; [reflexivity|]. split; [exact Hm|].
  destruct (pg_connect w) as [msg|u].
  - unfold logged. cbn [trace open_conns].
    rewrite !connect_attempts_app, !statements_app, Hs, Ha.
    repeat split; [simpl; lia | apply app_nil_r].
  - cbv zeta. cbn [trace open_conns].
    rewrite !connect_attempts_app, !statements_app, Hs, Ha.
    repeat split; [simpl; lia | apply app_nil_r | now apply filter_fresh].
Qed.

Lemma start_up_sets_agent_witness :
  exists agent p',
    init_agent_async down_world None (mkProcess None initial_state) = (Ok tt, p') /\
    agent_instance p' = Some agent /\
    (model agent = None <->
     exists msg, genai_setup down_world (GEMINI_API_KEY None) = Raises msg) /\
    connect_attempts (trace (outside p')) = S (connect_attempts (trace initial_state)) /\
    statements (trace (outside p')) = statements (trace initial_state) /\
    open_conns (outside p') = open_conns initial_state.
Proof.
  apply (start_up_sets_agent down_world None (mkProcess None initial_state)).
  intros c Hc. destruct Hc.
Defined.


(** The "not initialized" response with status 500 is what every
    request gets, whatever its body, while [agent_instance] is not set, and
    nothing else happens then; once the start-up has run no request gets
    it. *)
Theorem not_initialized_only_before_start_up (w : World) (get_json : outcome json)
    (p : process) :
  (agent_instance p = None ->
   query_ai_endpoint w get_json p = (Ok NOT_INITIALIZED, p)) /\
  (forall environ,
     fst (query_ai_endpoint w get_json (snd (init_agent_async w environ p)))
     <> Ok NOT_INITIALIZED).
Proof.
  split.
  - intros Ha. unfold query_ai_endpoint, bindP, read_agent_instance.
    now rewrite Ha.
  - intros environ.
    destruct (init_agent_async_run w environ p) as (agent & notes & _ & _ & _ & E).
    rewrite E. cbn [snd].
    set (p' := mkProcess (Some agent) _).
    rewrite (endpoint_with_agent w p' agent eq_refl).
    destruct get_json as [msg|data]; [discriminate|].
    unfold bindP at 1, retP at 1.
    destruct data as [| | | | | |items]; try discriminate.
    unfold bindP at 1, method_get, retP at 1.
    destruct (json_truthy (dict_get items "query")); [|discriminate].
    cbn [negb]. unfold bindP, call_handle_query.
    destruct (dict_get items "query") as [| | | |q| |]; try discriminate.
    destruct (lift (handle_query w agent q) p') as [[r|e] p'']; discriminate.
Qed.

Lemma not_initialized_only_before_start_up_witness :
  query_ai_endpoint swiss_world (Returns (JDict [("query", JStr "list cities")]))
    (mkProcess None initial_state) =
  (Ok NOT_INITIALIZED, mkProcess None initial_state).
Proof.
  exact (proj1 (not_initialized_only_before_start_up swiss_world
                  (Returns (JDict [("query", JStr "list cities")]))
                  (mkProcess None initial_state)) eq_refl).
Defined.

(** ** The heading of a listing *)

(** The heading of a hotel listing tells the phrasing of the query: a
    query starting with "hotels in " is answered under "Hotels in ...:",
    one starting with "find hotels in " under "Hotels found in ...:". *)
Theorem heading_follows_phrasing (w : World) (self : TravelAIAgent)
    (user_query prefix : string) (s : state) (row : hotel_row) (rows : list hotel_row) :
  prefix = "hotels in " \/ prefix = "find hotels in " ->
  startswith (normalize user_query) prefix = true ->
  let loc := strip (replace (normalize user_query) prefix "") in
  pg_connect w = Returns tt ->
  pg_select_hotels w loc = Returns (row :: rows) ->
  fst (handle_query w self user_query s) =
  Ok (join nl
        (((if (prefix =? "hotels in ")%string then "Hotels in " else "Hotels found in ")
          ++ title loc ++ ":")
         :: map (fun row => listing_line (hotel_of_row row)) (row :: rows))).
Proof.
  intros Hp Hs loc Hc Hr.
  assert (Hl : is_city_list_query (normalize user_query) = false).
  { destruct (is_city_list_query (normalize user_query)) eqn:E; [|reflexivity].
    apply orb_true_iff in E. destruct E as [E|E];
      apply String.eqb_eq in E; rewrite E in Hs;
      destruct Hp as [-> | ->]; discriminate. }
  rewrite (handle_query_hotels w self user_query prefix s Hp Hl Hs). fold loc.
  unfold bind, ret.
  rewrite (get_hotels_connected w loc s tt Hc), (rows_without_nul w loc _ Hr), Hr.
  cbn [fst]. f_equal. fold (heading_of prefix).
  rewrite <- (map_map hotel_of_row listing_line). cbn [map].
  destruct Hp as [-> | ->]; eapply hotels_response_listing; reflexivity.
Qed.

Lemma heading_follows_phrasing_witness :
  fst (handle_query swiss_world unconfigured_agent "Find hotels in Zurich" initial_state) =
  Ok (join nl
        (("Hotels found in " ++ title "zurich" ++ ":")
         :: map (fun row => listing_line (hotel_of_row row)) [lakeview_row])).
Proof.
  exact (heading_follows_phrasing swiss_world unconfigured_agent "Find hotels in Zurich"
           "find hotels in " initial_state lakeview_row []
           (or_intror eq_refl) eq_refl eq_refl eq_refl).
Defined.
